(** * Smart Task Analyzer: the priority scorer and the views

    A shallow embedding of the class [TaskScorer] of [tasks/scoring.py], of
    the views of [tasks/views.py] that call it and of the first version of
    the scores, [simple logic.py], and theorems about them.

    Modelling conventions.
    - Python numbers are exact: a finite [float] or an [int] is a rational
      ([Q]), together with the two infinities and NaN a [float] can hold.
      Binary rounding of the 64-bit representation is not modelled, so a
      literal such as [0.35] denotes 35/100.
    - Exceptions are explicit: a computation is a [result], either [Ok v] or
      [Raise e]; [try ... except] is [try_except] with the classes it names.
    - [date.today()], [datetime.strptime(_, '%Y-%m-%d').date()] and the parse
      done by [float(str)] belong to the Python library; they are the
      variables [today], [strptime] and [float_of_str] of section [Scorer].
      A date is its proleptic ordinal (a day count), and [today] is the
      same day for every call of one run.
    - A task is a dictionary with the keys the scorer reads.  Identifiers
      are [int]s, [str]s or [None]; the scored fields hold any JSON scalar,
      a [date], or another object.
    - The interpreter's recursion limit is not modelled. *)

From Stdlib Require Import ZArith QArith Qround Lqa Lia.
From stdpp Require Import gmap strings list pretty sorting.

Set Warnings "-clear-no-such-hyp".

(** ** Exceptions *)

Inductive exn :=
  | ValueError | TypeError | AttributeError | OverflowError | KeyError.

#[global] Instance exn_eq_dec : EqDecision exn.
Proof. solve_decision. Defined.

Inductive result (A : Type) :=
  | Ok (a : A)
  | Raise (e : exn).
Arguments Ok {A} a.
Arguments Raise {A} e.

Definition bind {A B} (r : result A) (k : A → result B) : result B :=
  match r with
  | Ok a => k a
  | Raise e => Raise e
  end.

Notation "x ←! r ; k" := (bind r (λ x, k))
  (at level 20, r at level 100, k at level 200, right associativity,
   format "'[' x  ←!  r ;  '/' k ']'").

(** [try: body except (classes): handler]. *)
Definition try_except {A} (body : result A) (classes : list exn)
    (handler : exn → result A) : result A :=
  match body with
  | Ok a => Ok a
  | Raise e => if bool_decide (e ∈ classes) then handler e else Raise e
  end.

(** [try: body except Exception as e: handler]: every class above derives
    from [Exception]. *)
Definition try_except_Exception {A} (body : result A)
    (handler : exn → result A) : result A :=
  match body with
  | Ok a => Ok a
  | Raise e => handler e
  end.

(** [str(e)].  Only an [OverflowError] of [float] reaches a handler that
    reads the message (see [score_task_error_entry]); for the other
    classes the class name stands for the message. *)
Definition exn_message (e : exn) : string :=
  match e with
  | OverflowError => "int too large to convert to float"
  | ValueError => "ValueError"
  | TypeError => "TypeError"
  | AttributeError => "AttributeError"
  | KeyError => "KeyError"
  end.

(** ** Numbers *)

Inductive pyfloat :=
  | FFin (q : Q)
  | FInf (negative : bool)
  | FNaN.

Definition Qltb (x y : Q) : bool := negb (Qle_bool y x).

(** [a < b] *)
Definition flt (a b : pyfloat) : bool :=
  match a, b with
  | FFin p, FFin q => Qltb p q
  | FFin _, FInf neg => negb neg
  | FInf neg, FFin _ => neg
  | FInf n1, FInf n2 => n1 && negb n2
  | _, _ => false
  end.

(** [a <= b] *)
Definition fle (a b : pyfloat) : bool :=
  match a, b with
  | FFin p, FFin q => Qle_bool p q
  | FFin _, FInf neg => negb neg
  | FInf neg, FFin _ => neg
  | FInf n1, FInf n2 => n1 || negb n2
  | _, _ => false
  end.

(** [a >= b] *)
Definition fge (a b : pyfloat) : bool := fle b a.

Definition fneg (a : pyfloat) : pyfloat :=
  match a with
  | FFin p => FFin (- p)
  | FInf neg => FInf (negb neg)
  | FNaN => FNaN
  end.

Definition fadd (a b : pyfloat) : pyfloat :=
  match a, b with
  | FFin p, FFin q => FFin (p + q)
  | FFin _, FInf neg | FInf neg, FFin _ => FInf neg
  | FInf n1, FInf n2 => if Bool.eqb n1 n2 then FInf n1 else FNaN
  | _, _ => FNaN
  end.

Definition fsub (a b : pyfloat) : pyfloat := fadd a (fneg b).

Definition fmul (a b : pyfloat) : pyfloat :=
  match a, b with
  | FFin p, FFin q => FFin (p * q)
  | FFin p, FInf neg | FInf neg, FFin p =>
      if Qeq_bool p 0 then FNaN else FInf (xorb neg (Qltb p 0))
  | FInf n1, FInf n2 => FInf (xorb n1 n2)
  | _, _ => FNaN
  end.

(** [a / c] for a numeric literal [c] other than zero (the scorer divides
    by [30] and by [8] only). *)
Definition fdiv_lit (a : pyfloat) (c : Q) : pyfloat :=
  match a with
  | FFin p => FFin (p / c)
  | FInf neg => FInf (xorb neg (Qltb c 0))
  | FNaN => FNaN
  end.

(** The builtins [min(a, b)] and [max(a, b)]: the first argument is kept
    unless the second is strictly smaller (larger). *)
Definition pymin (a b : pyfloat) : pyfloat := if flt b a then b else a.
Definition pymax (a b : pyfloat) : pyfloat := if flt a b then b else a.

(** Nearest integer, ties to the even one. *)
Definition round_half_even (x : Q) : Z :=
  let f := Qfloor x in
  let r := (x - inject_Z f)%Q in
  if Qltb r (1 # 2) then f
  else if Qltb (1 # 2) r then (f + 1)%Z
  else if Z.even f then f else (f + 1)%Z.

(** [round(x, 2)]; an infinity or a NaN is returned as it is. *)
Definition round2 (x : pyfloat) : pyfloat :=
  match x with
  | FFin q => FFin (round_half_even (q * 100) # 100)
  | _ => x
  end.

(** An [int] converts to [float] unless it rounds past the largest finite
    double, 2^1024 - 2^971; the midpoint 2^1024 - 2^970 already overflows. *)
Definition float_of_int (n : Z) : result pyfloat :=
  if (Z.abs n <? 2 ^ 1024 - 2 ^ 970)%Z then Ok (FFin (inject_Z n))
  else Raise OverflowError.

(** ** Values *)

(** What a scored field of a task may hold: a JSON scalar, a [date], or
    anything else (a list, a dict). *)
Inductive pyval :=
  | VNone
  | VBool (b : bool)
  | VInt (n : Z)
  | VFloat (x : pyfloat)
  | VStr (s : string)
  | VDate (ordinal : Z)
  | VOther.

(** Task identifiers: an [int], a [str], or [None] (a task with neither
    ['id'] nor ['title']).  On these Python's [==] is plain equality. *)
Inductive ident :=
  | INone
  | IInt (n : Z)
  | IStr (s : string).

#[global] Instance ident_eq_dec : EqDecision ident.
Proof. solve_decision. Defined.

#[global] Instance ident_countable : Countable ident.
Proof.
  refine (inj_countable'
    (λ i, match i with
          | INone => inl ()
          | IInt n => inr (inl n)
          | IStr s => inr (inr s)
          end)
    (λ x, match x with
          | inl () => INone
          | inr (inl n) => IInt n
          | inr (inr s) => IStr s
          end) _).
  by intros [].
Defined.

(** The ['dependencies'] entry: a list of identifiers, or a value that
    supports neither [in] nor iteration ([None], a number). *)
Inductive deps_value :=
  | DepList (l : list ident)
  | DepNotIterable.

(** A task dictionary; [None] is an absent key. *)
Record Task := mkTask {
  task_id : option ident;
  task_title : option ident;
  due_date : option pyval;
  estimated_hours : option pyval;
  importance : option pyval;
  dependencies : option deps_value;
}.

(** [task.get('id', task.get('title'))] *)
Definition task_key (t : Task) : ident :=
  match task_id t with
  | Some i => i
  | None => default INone (task_title t)
  end.

(** [task.get('dependencies', [])] *)
Definition task_deps (t : Task) : deps_value :=
  default (DepList []) (dependencies t).

(** [x in deps] *)
Definition py_in (x : ident) (deps : deps_value) : result bool :=
  match deps with
  | DepList l => Ok (bool_decide (x ∈ l))
  | DepNotIterable => Raise TypeError
  end.

(** [for neighbor in deps] *)
Definition py_iter (deps : deps_value) : result (list ident) :=
  match deps with
  | DepList l => Ok l
  | DepNotIterable => Raise TypeError
  end.

(** ** The scorer *)

(** One strategy's weight dictionary. *)
Record weight_vector := Weights {
  w_urgency : Q;
  w_importance : Q;
  w_effort : Q;
  w_dependencies : Q;
}.

Definition strategies : gmap string weight_vector :=
  list_to_map [
    ("smart_balance", Weights 0.35 0.30 0.10 0.25);
    ("fastest_wins", Weights 0.20 0.20 0.50 0.10);
    ("high_impact", Weights 0.15 0.60 0.05 0.20);
    ("deadline_driven", Weights 0.70 0.15 0.05 0.10)
  ].

#[global] Instance weight_vector_inhabited : Inhabited weight_vector :=
  populate (Weights 0 0 0 0).

(** [strategies.get(strategy, strategies['smart_balance'])]; the subscript
    is a total lookup, its key being one of the four above. *)
Definition _get_weights (strategy : string) : weight_vector :=
  default (strategies !!! "smart_balance") (strategies !! strategy).

Record TaskScorer := Scorer {
  strategy : string;
  weights : weight_vector;
}.

(** [TaskScorer.__init__] *)
Definition TaskScorer_init (strategy : string) : TaskScorer :=
  {| strategy := strategy; weights := _get_weights strategy |}.

(** The dictionary [score_task] returns.  A [score_data] without a
    ['components'] key reads like one whose [components] is empty. *)
Record score_data := ScoreData {
  score : pyfloat;
  components : gmap string pyfloat;
  error : option string;
}.

Definition of_int (n : Z) : pyfloat := FFin (inject_Z n).

Section Scorer.

(** [date.today()], as an ordinal. *)
Variable today : Z.
(** [datetime.strptime(s, '%Y-%m-%d').date()]; [None] is its [ValueError]. *)
Variable strptime : string → option Z.
(** [float(s)] on a string; [None] is its [ValueError]. *)
Variable float_of_str : string → option pyfloat.

(** The builtin [float(v)]. *)
Definition py_float (v : pyval) : result pyfloat :=
  match v with
  | VNone => Raise TypeError
  | VBool b => Ok (of_int (if b then 1 else 0))
  | VInt n => float_of_int n
  | VFloat x => Ok x
  | VStr s =>
      match float_of_str s with
      | Some x => Ok x
      | None => Raise ValueError
      end
  | VDate _ => Raise TypeError
  | VOther => Raise TypeError
  end.

(** [(due_date - today).days]: only a [date] can be subtracted from. *)
Definition days_from_today (due_date : pyval) : result Z :=
  match due_date with
  | VDate d => Ok (d - today)%Z
  | _ => Raise TypeError
  end.

(** The ladder of [calculate_urgency_score] on [days_until]. *)
Definition urgency_of_days (days_until : Z) : pyfloat :=
  if (days_until <? 0)%Z then
    pymin (of_int 10)
      (fadd (of_int 10) (fmul (of_int (Z.abs days_until)) (FFin 0.1)))
  else if (days_until =? 0)%Z then FFin 9.5
  else if (days_until =? 1)%Z then FFin 9.0
  else if (days_until <=? 3)%Z then FFin 8.0
  else if (days_until <=? 7)%Z then FFin 6.0
  else if (days_until <=? 14)%Z then FFin 4.0
  else if (days_until <=? 30)%Z then FFin 2.0
  else
    pymax (of_int 0)
      (fsub (of_int 2) (fdiv_lit (of_int (days_until - 30)) 30)).

Definition calculate_urgency_score (due_date : pyval) : result pyfloat :=
  try_except
    (due_date ←! match due_date with
                 | VStr s =>
                     match strptime s with
                     | Some d => Ok (VDate d)
                     | None => Raise ValueError
                     end
                 | _ => Ok due_date
                 end;
     days_until ←! days_from_today due_date;
     Ok (urgency_of_days days_until))
    [ValueError; TypeError; AttributeError]
    (λ _, Ok (FFin 5.0)).

Definition calculate_importance_score (importance : pyval)
    : result pyfloat :=
  try_except
    (importance ←! py_float importance;
     Ok (pymax (FFin 1.0) (pymin (FFin 10.0) importance)))
    [ValueError; TypeError]
    (λ _, Ok (FFin 5.0)).

(** The brackets of [calculate_effort_score] on [hours]. *)
Definition effort_of_hours (hours : pyfloat) : pyfloat :=
  let hours := if flt hours (of_int 0) then of_int 0 else hours in
  if fle hours (FFin 0.5) then FFin 10.0
  else if fle hours (of_int 1) then FFin 9.0
  else if fle hours (of_int 2) then FFin 8.0
  else if fle hours (of_int 4) then FFin 6.0
  else if fle hours (of_int 8) then FFin 4.0
  else if fle hours (of_int 16) then FFin 2.0
  else
    pymax (of_int 0)
      (fsub (of_int 2) (fdiv_lit (fsub hours (of_int 16)) 8)).

Definition calculate_effort_score (estimated_hours : pyval)
    : result pyfloat :=
  try_except
    (hours ←! py_float estimated_hours;
     Ok (effort_of_hours hours))
    [ValueError; TypeError]
    (λ _, Ok (FFin 5.0)).

(** The loop of [calculate_dependency_score]. *)
Fixpoint count_dependents (task_id : ident) (all_tasks : list Task)
    (dependent_count : nat) : result nat :=
  match all_tasks with
  | [] => Ok dependent_count
  | task :: rest =>
      found ←! py_in task_id (task_deps task);
      count_dependents task_id rest
        (if found : bool then S dependent_count else dependent_count)
  end.

Definition dependency_of_count (dependent_count : nat) : pyfloat :=
  if (dependent_count =? 0)%nat then FFin 0.0
  else if (dependent_count =? 1)%nat then FFin 4.0
  else if (dependent_count =? 2)%nat then FFin 7.0
  else
    pymin (FFin 10.0)
      (fadd (FFin 7.0)
         (fmul (of_int (Z.of_nat dependent_count - 2)) (FFin 1.5))).

Definition calculate_dependency_score (task_id : ident)
    (all_tasks : list Task) : result pyfloat :=
  try_except_Exception
    (dependent_count ←! count_dependents task_id all_tasks 0;
     Ok (dependency_of_count dependent_count))
    (λ _, Ok (FFin 0.0)).

Definition score_task (self : TaskScorer) (task : Task)
    (all_tasks : list Task) : result score_data :=
  try_except_Exception
    (urgency ←! calculate_urgency_score (default VNone (due_date task));
     importance ←!
       calculate_importance_score (default VNone (importance task));
     effort ←!
       calculate_effort_score (default VNone (estimated_hours task));
     dependencies ←! calculate_dependency_score (task_key task) all_tasks;
     let final_score :=
       fadd (fadd (fadd
         (fmul (FFin (w_urgency (weights self))) urgency)
         (fmul (FFin (w_importance (weights self))) importance))
         (fmul (FFin (w_effort (weights self))) effort))
         (fmul (FFin (w_dependencies (weights self))) dependencies) in
     Ok {| score := round2 final_score;
           components := list_to_map [
             ("urgency", round2 urgency);
             ("importance", round2 importance);
             ("effort", round2 effort);
             ("dependencies", round2 dependencies)];
           error := None |})
    (λ e,
     Ok {| score := FFin 0.0;
           components := list_to_map [
             ("urgency", FFin 0.0);
             ("importance", FFin 0.0);
             ("effort", FFin 0.0);
             ("dependencies", FFin 0.0)];
           error := Some (exn_message e) |}).

End Scorer.

(** ** Circular dependencies *)

(** The three objects the nested [dfs] closes over and mutates. *)
Record dfs_state := DfsState {
  visited : gset ident;
  rec_stack : gset ident;
  cycles : list (gset ident);
}.

(** [path.index(x)]; [None] is its [ValueError]. *)
Fixpoint list_index (x : ident) (path : list ident) : option nat :=
  match path with
  | [] => None
  | y :: rest => if decide (y = x) then Some 0%nat else S <$> list_index x rest
  end.

(** The branch [elif neighbor in rec_stack] of the loop in [dfs]. *)
Definition record_cycle (neighbor : ident) (path : list ident)
    (st : dfs_state) : result dfs_state :=
  match list_index neighbor path with
  | None => Raise ValueError
  | Some cycle_start =>
      let cycle : gset ident :=
        list_to_set (drop cycle_start path ++ [neighbor]) in
      Ok (if bool_decide (cycle ∈ cycles st) then st
          else {| visited := visited st;
                  rec_stack := rec_stack st;
                  cycles := cycles st ++ [cycle] |})
  end.

(** [for neighbor in ...] of [dfs]; [call] is the recursive [dfs], which
    gets a copy of [path].  [None] means that the fuel of the model ran
    out. *)
Fixpoint dfs_neighbors
    (call : ident → list ident → dfs_state → option (result dfs_state))
    (path : list ident) (neighbors : list ident) (st : dfs_state)
    : option (result dfs_state) :=
  match neighbors with
  | [] => Some (Ok st)
  | neighbor :: rest =>
      if bool_decide (neighbor ∉ visited st) then
        match call neighbor path st with
        | Some (Ok st') => dfs_neighbors call path rest st'
        | stop => stop
        end
      else if bool_decide (neighbor ∈ rec_stack st) then
        match record_cycle neighbor path st with
        | Ok st' => dfs_neighbors call path rest st'
        | Raise e => Some (Raise e)
        end
      else dfs_neighbors call path rest st
  end.

(** [rec_stack.remove(node)] *)
Definition rec_stack_remove (node : ident) (st : dfs_state)
    : result dfs_state :=
  if bool_decide (node ∈ rec_stack st) then
    Ok {| visited := visited st;
          rec_stack := rec_stack st ∖ {[node]};
          cycles := cycles st |}
  else Raise KeyError.

(** The nested function [dfs(node, path)]; each level of recursion takes
    one unit of [fuel]. *)
Fixpoint dfs (fuel : nat) (graph : gmap ident deps_value) (node : ident)
    (path : list ident) (st : dfs_state) : option (result dfs_state) :=
  match fuel with
  | O => None
  | S fuel =>
      let st := {| visited := {[node]} ∪ visited st;
                   rec_stack := {[node]} ∪ rec_stack st;
                   cycles := cycles st |} in
      let path := path ++ [node] in
      match py_iter (default (DepList []) (graph !! node)) with
      | Raise e => Some (Raise e)
      | Ok neighbors =>
          match dfs_neighbors (dfs fuel graph) path neighbors st with
          | Some (Ok st) => Some (rec_stack_remove node st)
          | stop => stop
          end
      end
  end.

(** The first loop of [detect_circular_dependencies]: a later task with
    the same identifier replaces the entry of an earlier one. *)
Definition build_graph (tasks : list Task) : gmap ident deps_value :=
  foldl (λ graph task, <[task_key task := task_deps task]> graph) ∅ tasks.

(** The second loop of [detect_circular_dependencies]. *)
Fixpoint check_all_nodes (fuel : nat) (graph : gmap ident deps_value)
    (tasks : list Task) (st : dfs_state) : option (result dfs_state) :=
  match tasks with
  | [] => Some (Ok st)
  | task :: rest =>
      if bool_decide (task_key task ∉ visited st) then
        match dfs fuel graph (task_key task) [] st with
        | Some (Ok st') => check_all_nodes fuel graph rest st'
        | stop => stop
        end
      else check_all_nodes fuel graph rest st
  end.

(** Every identifier a task list mentions, with repetitions. *)
Definition mentioned (tasks : list Task) : list ident :=
  flat_map (λ task,
    task_key task ::
    match task_deps task with DepList l => l | DepNotIterable => [] end)
    tasks.

(** The recursion of [dfs] is never deeper than the number of identifiers
    mentioned, so this much fuel is never used up
    (see [detect_circular_dependencies_fuel]). *)
Definition dfs_fuel (tasks : list Task) : nat := S (length (mentioned tasks)).

(** [None] would mean that the fuel ran out; it never does. *)
Definition detect_circular_dependencies (tasks : list Task)
    : option (result (list (gset ident))) :=
  let graph := build_graph tasks in
  match check_all_nodes (dfs_fuel tasks) graph tasks
          {| visited := ∅; rec_stack := ∅; cycles := [] |} with
  | Some (Ok st) => Some (Ok (cycles st))
  | Some (Raise e) => Some (Raise e)
  | None => None
  end.

(** ** Explanations *)

Definition explanation_reasons (self : TaskScorer)
    (components : gmap string pyfloat) : list string :=
  let get key := default (of_int 0) (components !! key) in
  let reasons := [] in
  let reasons :=
    if fge (get "urgency") (of_int 8) then
      reasons ++ ["⚠️ Due very soon or overdue"]
    else if fge (get "urgency") (of_int 6) then
      reasons ++ ["📅 Due within a week"]
    else reasons in
  let reasons :=
    if fge (get "importance") (of_int 8) then
      reasons ++ ["⭐ High importance"]
    else if fge (get "importance") (of_int 6) then
      reasons ++ ["🔹 Medium-high importance"]
    else reasons in
  let reasons :=
    if fge (get "effort") (of_int 8) then
      reasons ++ ["⚡ Quick win (low effort)"]
    else reasons in
  let reasons :=
    if fge (get "dependencies") (of_int 7) then
      reasons ++ ["🔗 Multiple tasks depend on this"]
    else if fge (get "dependencies") (of_int 4) then
      reasons ++ ["🔗 Blocks other tasks"]
    else reasons in
  if bool_decide (strategy self = "fastest_wins")
     && fge (get "effort") (of_int 7) then
    reasons ++ ["🎯 Prioritized as quick win"]
  else if bool_decide (strategy self = "high_impact")
          && fge (get "importance") (of_int 7) then
    reasons ++ ["🎯 Prioritized for high impact"]
  else if bool_decide (strategy self = "deadline_driven")
          && fge (get "urgency") (of_int 7) then
    reasons ++ ["🎯 Prioritized by deadline"]
  else reasons.

Definition generate_explanation (self : TaskScorer) (task : Task)
    (score_data : score_data) : string :=
  let reasons := explanation_reasons self (components score_data) in
  if bool_decide (reasons = []) then
    "📊 Balanced priority across all factors"
  else String.concat " • " reasons.

(** Tasks as the unit tests write them: an ['id'] and ['dependencies']. *)
Definition dep_task (i : ident) (deps : list ident) : Task :=
  {| task_id := Some i; task_title := None; due_date := None;
     estimated_hours := None; importance := None;
     dependencies := Some (DepList deps) |}.

(** The date a due-date value stands for, if any: a [date] object, or a
    string [strptime] accepts. *)
Definition date_of (strptime : string → option Z) (due_date : pyval)
    : option Z :=
  match due_date with
  | VDate d => Some d
  | VStr s => strptime s
  | _ => None
  end.

(** ** Vocabulary of the properties *)

(** A finite number between [lo] and [hi]. *)
Definition in_range (lo hi : Q) (x : pyfloat) : Prop :=
  ∃ q, x = FFin q ∧ (lo <= q)%Q ∧ (q <= hi)%Q.

(** The task lists [task_id] among its dependencies. *)
Definition lists_dependency (task_id : ident) (task : Task) : bool :=
  match task_deps task with
  | DepList l => bool_decide (task_id ∈ l)
  | DepNotIterable => false
  end.

(** The ['dependencies'] entry of the task can be searched. *)
Definition deps_iterable (task : Task) : bool :=
  match task_deps task with
  | DepList _ => true
  | DepNotIterable => false
  end.


(** A task with every field present, as the integration test builds it. *)
Definition full_task (i : Z) (title : string) (due : pyval) (hours : Z)
    (imp : Z) : Task :=
  {| task_id := Some (IInt i); task_title := Some (IStr title);
     due_date := Some due; estimated_hours := Some (VInt hours);
     importance := Some (VInt imp); dependencies := Some (DepList []) |}.

(** No test of [generate_explanation] succeeds on these components. *)
Definition no_threshold_met (self : TaskScorer)
    (components : gmap string pyfloat) : bool :=
  let get key := default (of_int 0) (components !! key) in
  negb (fge (get "urgency") (of_int 8))
  && negb (fge (get "urgency") (of_int 6))
  && negb (fge (get "importance") (of_int 8))
  && negb (fge (get "importance") (of_int 6))
  && negb (fge (get "effort") (of_int 8))
  && negb (fge (get "dependencies") (of_int 7))
  && negb (fge (get "dependencies") (of_int 4))
  && negb (bool_decide (strategy self = "fastest_wins")
           && fge (get "effort") (of_int 7))
  && negb (bool_decide (strategy self = "high_impact")
           && fge (get "importance") (of_int 7))
  && negb (bool_decide (strategy self = "deadline_driven")
           && fge (get "urgency") (of_int 7)).

(** [sorted(scored, key=score, reverse=True)] as the integration test ranks
    the tasks: highest score first, equal scores in their original order. *)
Fixpoint insert_by_score {A} (x : A * pyfloat) (l : list (A * pyfloat))
    : list (A * pyfloat) :=
  match l with
  | [] => [x]
  | y :: rest =>
      if flt (snd x) (snd y) then y :: insert_by_score x rest else x :: l
  end.

Definition sorted_by_score {A} (l : list (A * pyfloat))
    : list (A * pyfloat) :=
  foldr insert_by_score [] l.

(** The neighbours the loop of [dfs] runs over. *)
Definition neighbors_of (graph : gmap ident deps_value) (node : ident)
    : list ident :=
  match default (DepList []) (graph !! node) with
  | DepList l => l
  | DepNotIterable => []
  end.

(** What a call of [dfs], or a part of its loop, does to the state. *)
Definition dfs_step (st st' : dfs_state) : Prop :=
  rec_stack st' = rec_stack st ∧
  visited st ⊆ visited st' ∧
  (∀ c, c ∈ cycles st → c ∈ cycles st').

(** A node that left the recursion stack and depends on itself has its
    singleton cycle recorded. *)
Definition self_loops_recorded (graph : gmap ident deps_value)
    (st : dfs_state) : Prop :=
  ∀ u, u ∈ visited st → u ∉ rec_stack st → u ∈ neighbors_of graph u →
       {[u]} ∈ cycles st.

(** What holds whenever [dfs] is entered or its loop is at a neighbour:
    [path] and [rec_stack] hold the same nodes, all of them visited. *)
Definition dfs_inv (graph : gmap ident deps_value) (universe : gset ident)
    (path : list ident) (st : dfs_state) : Prop :=
  (∀ x, x ∈ path ↔ x ∈ rec_stack st) ∧
  rec_stack st ⊆ visited st ∧
  visited st ⊆ universe ∧
  self_loops_recorded graph st.

(** The contract of a call of [dfs] with [fuel] above the number of nodes
    of the universe still to visit. *)
Definition call_spec (graph : gmap ident deps_value) (universe : gset ident)
    (fuel : nat)
    (call : ident → list ident → dfs_state → option (result dfs_state))
    : Prop :=
  ∀ node path st,
    dfs_inv graph universe path st → node ∉ visited st → node ∈ universe →
    size (universe ∖ visited st) < fuel →
    ∃ st', call node path st = Some (Ok st') ∧
           dfs_step st st' ∧ dfs_inv graph universe path st' ∧
           node ∈ visited st'.

(** A call of [dfs] either raises or returns a state with more nodes
    visited, all of the universe; it does not run out of fuel. *)
Definition call_returns (universe : gset ident) (fuel : nat)
    (call : ident → list ident → dfs_state → option (result dfs_state))
    : Prop :=
  ∀ node path st,
    visited st ⊆ universe → node ∈ universe → node ∉ visited st →
    size (universe ∖ visited st) < fuel →
    (∃ e, call node path st = Some (Raise e)) ∨
    (∃ st', call node path st = Some (Ok st') ∧
            {[node]} ∪ visited st ⊆ visited st' ∧ visited st' ⊆ universe).

(** ** More vocabulary *)

(** The task with another ['due_date'] entry. *)
Definition with_due_date (task : Task) (due : pyval) : Task :=
  {| task_id := task_id task; task_title := task_title task;
     due_date := Some due; estimated_hours := estimated_hours task;
     importance := importance task; dependencies := dependencies task |}.

(** [u] lists [v] among its dependencies, in the graph of the detection. *)
Definition depends_on (graph : gmap ident deps_value) (u v : ident) : Prop :=
  v ∈ neighbors_of graph u.

(** Each node of the path depends on the next one. *)
Fixpoint is_chain (graph : gmap ident deps_value) (path : list ident)
    : Prop :=
  match path with
  | u :: (v :: _) as rest => depends_on graph u v ∧ is_chain graph rest
  | _ => True
  end.

(** A set of nodes of one dependency cycle: it is not empty, and each
    member depends, through one step or more, on every member, itself
    included. *)
Definition on_a_cycle (graph : gmap ident deps_value) (c : gset ident)
    : Prop :=
  c ≠ ∅ ∧ ∀ x y, x ∈ c → y ∈ c → tc (depends_on graph) x y.

(** No node depends on itself through one step or more. *)
Definition acyclic (graph : gmap ident deps_value) : Prop :=
  ∀ x, ¬ tc (depends_on graph) x x.

(** The nodes whose call of [dfs] has returned. *)
Definition finished (st : dfs_state) : gset ident :=
  visited st ∖ rec_stack st.

(** As long as no cycle is recorded, the finished nodes depend on finished
    nodes only, and none of them lies on a cycle. *)
Definition no_cycle_so_far (graph : gmap ident deps_value)
    (st : dfs_state) : Prop :=
  cycles st = [] →
  (∀ u v, u ∈ finished st → depends_on graph u v → v ∈ finished st) ∧
  (∀ x, x ∈ finished st → ¬ tc (depends_on graph) x x).

(** [path] and [rec_stack] hold the same nodes, all of them visited. *)
Definition stack_inv (universe : gset ident) (path : list ident)
    (st : dfs_state) : Prop :=
  (∀ x, x ∈ path ↔ x ∈ rec_stack st) ∧
  rec_stack st ⊆ visited st ∧
  visited st ⊆ universe.

(** The contract of a call of [dfs] that keeps [no_cycle_so_far]. *)
Definition call_spec_acyclic (graph : gmap ident deps_value)
    (universe : gset ident) (fuel : nat)
    (call : ident → list ident → dfs_state → option (result dfs_state))
    : Prop :=
  ∀ node path st,
    stack_inv universe path st → no_cycle_so_far graph st →
    node ∉ visited st → node ∈ universe →
    size (universe ∖ visited st) < fuel →
    ∃ st', call node path st = Some (Ok st') ∧
           dfs_step st st' ∧ stack_inv universe path st' ∧
           node ∈ visited st' ∧ no_cycle_so_far graph st'.

(** ** The views of [tasks/views.py] *)

(** A request is what the views read of it: the ['tasks'] and ['strategy']
    entries of the body and of the query parameters.  A strategy is a
    string.  A task dictionary has the six keys the views and the scorer
    read; identifiers, titles and single dependencies are [int]s, [str]s
    or [None]. *)

(** A ['dependencies'] entry as a request delivers it: a list of
    identifiers or a single one. *)
Inductive raw_deps :=
  | RawList (l : list ident)
  | RawScalar (v : ident).

(** A task dictionary of a request; [None] is an absent key. *)
Record raw_task := RawTask {
  raw_id : option ident;
  raw_title : option ident;
  raw_due_date : option pyval;
  raw_estimated_hours : option pyval;
  raw_importance : option pyval;
  raw_dependencies : option raw_deps;
}.

(** An entry of the ['tasks'] list: a dictionary, or any other value. *)
Inductive raw_entry :=
  | RawDict (t : raw_task)
  | RawOther.

(** [str(i)] for an identifier, as the f-string of the default title
    formats it. *)
Definition ident_str (i : ident) : string :=
  match i with
  | INone => "None"
  | IInt n => pretty n
  | IStr s => s
  end.

(** [deps or []]: [None], [0], the empty string and the empty list are
    false. *)
Definition deps_or_empty (deps : raw_deps) : raw_deps :=
  match deps with
  | RawList [] | RawScalar INone | RawScalar (IInt 0)
  | RawScalar (IStr EmptyString) => RawList []
  | _ => deps
  end.

(** The body of the loop of [_normalize_tasks] for the dictionary at
    position [idx]. *)
Definition normalize_task (idx : nat) (task : raw_task) : Task :=
  let task_id := default (IInt (Z.of_nat idx + 1)) (raw_id task) in
  let deps :=
    deps_or_empty (default (RawList []) (raw_dependencies task)) in
  let deps := match deps with RawList l => l | RawScalar v => [v] end in
  {| task_id := Some task_id;
     task_title :=
       Some (default (IStr ("Task " +:+ ident_str task_id)) (raw_title task));
     due_date := Some (default VNone (raw_due_date task));
     estimated_hours := Some (default VNone (raw_estimated_hours task));
     importance := Some (default VNone (raw_importance task));
     dependencies := Some (DepList deps) |}.

(** [for idx, task in enumerate(raw_tasks)], from position [idx] on. *)
Fixpoint normalize_from (idx : nat) (raw_tasks : list raw_entry)
    : list Task :=
  match raw_tasks with
  | [] => []
  | RawOther :: rest => normalize_from (S idx) rest
  | RawDict task :: rest =>
      normalize_task idx task :: normalize_from (S idx) rest
  end.

Definition _normalize_tasks (raw_tasks : list raw_entry) : list Task :=
  normalize_from 0 raw_tasks.

(** A task of a response: the task and the three keys added to its copy. *)
Record enriched_task := Enriched {
  e_task : Task;
  priority_score : pyfloat;
  score_components : gmap string pyfloat;
  explanation : string;
}.

(** The ['tasks'] value of a request: a list, a string, or another value,
    of which the views only test the truth. *)
Inductive tasks_value :=
  | TasksList (l : list raw_entry)
  | TasksStr (s : string)
  | TasksOther (truthy : bool).

Record request := Request {
  data_tasks : option tasks_value;
  data_strategy : option string;
  query_tasks : option string;
  query_strategy : option string;
}.

Inductive response_body :=
  | ErrorBody (error : string) (details : option string)
  | AnalysisBody (strategy : string) (tasks : list enriched_task)
      (circular_dependencies : list (gset ident))
  | NoSuggestionBody (message : string)
  | SuggestionBody (strategy : string) (top_tasks : list enriched_task)
      (count : nat).

Record response := Response {
  status : nat;
  body : response_body;
}.

(** [not raw_tasks] is false on these. *)
Definition tasks_truthy (v : tasks_value) : bool :=
  match v with
  | TasksList [] | TasksStr EmptyString => false
  | TasksList _ | TasksStr _ => true
  | TasksOther truthy => truthy
  end.

(** The key of the sort, [t.get("priority_score") or 0]. *)
Definition sort_key (e : enriched_task) : pyfloat :=
  match priority_score e with
  | FFin q => if Qeq_bool q 0 then of_int 0 else FFin q
  | s => s
  end.

(** [scored.sort(key=..., reverse=True)]: the stable sort, highest key
    first. *)
Definition sort_scored (scored : list enriched_task) : list enriched_task :=
  fst <$> sorted_by_score ((λ e, (e, sort_key e)) <$> scored).

Section Views.

Variable today : Z.
Variable strptime : string → option Z.
Variable float_of_str : string → option pyfloat.
(** [json.loads(s)] as far as the views look at its result; [None] is its
    [ValueError]. *)
Variable json_loads : string → option tasks_value.

(** The loop over [tasks] of both views. *)
Fixpoint score_all (scorer : TaskScorer) (tasks all_tasks : list Task)
    : result (list enriched_task) :=
  match tasks with
  | [] => Ok []
  | task :: rest =>
      score_data ←! score_task today strptime float_of_str scorer task
                      all_tasks;
      let enriched :=
        {| e_task := task;
           priority_score := score score_data;
           score_components := components score_data;
           explanation := generate_explanation scorer task score_data |} in
      scored ←! score_all scorer rest all_tasks;
      Ok (enriched :: scored)
  end.

(** [except Exception as exc] of the views.  For the error of
    [json.loads] the ['details'] are the parser's message, of which
    [exn_message] keeps the class only. *)
Definition server_error (error : string) (exc : exn) : response :=
  {| status := 500; body := ErrorBody error (Some (exn_message exc)) |}.

(** [None] would mean that the fuel of the detection ran out. *)
Definition analyze_tasks (request : request) : option response :=
  let raw_tasks := default (TasksList []) (data_tasks request) in
  let strategy := default "smart_balance" (data_strategy request) in
  match raw_tasks with
  | TasksList (entry :: entries) =>
      let scorer := TaskScorer_init strategy in
      let tasks := _normalize_tasks (entry :: entries) in
      match detect_circular_dependencies tasks with
      | None => None
      | Some (Raise exc) => Some (server_error "Failed to analyze tasks" exc)
      | Some (Ok cycles) =>
          match score_all scorer tasks tasks with
          | Raise exc => Some (server_error "Failed to analyze tasks" exc)
          | Ok scored_tasks =>
              Some {| status := 200;
                      body := AnalysisBody strategy (sort_scored scored_tasks)
                                cycles |}
          end
      end
  | _ =>
      Some {| status := 400; body := ErrorBody "No tasks provided" None |}
  end.

Definition suggest_tasks (request : request) : response :=
  let raw_tasks :=
    match data_tasks request with
    | Some v => if tasks_truthy v then Some v
                else TasksStr <$> query_tasks request
    | None => TasksStr <$> query_tasks request
    end in
  let strategy := default "smart_balance" (query_strategy request) in
  match raw_tasks with
  | None | Some (TasksList []) | Some (TasksStr EmptyString)
  | Some (TasksOther false) =>
      {| status := 200;
         body := NoSuggestionBody
           "No tasks provided – please analyze tasks first or provide a task list." |}
  | Some raw_tasks =>
      let parsed :=
        match raw_tasks with
        | TasksStr s =>
            match json_loads s with
            | Some v => Ok v
            | None => Raise ValueError
            end
        | _ => Ok raw_tasks
        end in
      match parsed with
      | Raise exc => server_error "Failed to suggest tasks" exc
      | Ok (TasksList entries) =>
          let scorer := TaskScorer_init strategy in
          let tasks := _normalize_tasks entries in
          match score_all scorer tasks tasks with
          | Raise exc => server_error "Failed to suggest tasks" exc
          | Ok scored =>
              let top_tasks := take 3 (sort_scored scored) in
              {| status := 200;
                 body := SuggestionBody strategy top_tasks
                           (length top_tasks) |}
          end
      | Ok _ =>
          {| status := 400;
             body := ErrorBody
               "Invalid tasks format – expected a list of tasks." None |}
      end
  end.

End Views.

(** ** The first version of the scores, [simple logic.py] *)

Module SimpleLogic.

(** The task dictionary [final_priority] reads; [None] is an absent key. *)
Record task := Task {
  title : option string;
  due_date : option string;
  importance : option Z;
  hours : option pyfloat;
}.

(** The dictionary [final_priority] returns. *)
Record priority := Priority {
  urgency : Z;
  importance_of : Z;
  effort : Z;
  final_score : pyfloat;
}.

(** [task[key]] *)
Definition getitem {A} (entry : option A) : result A :=
  match entry with
  | Some v => Ok v
  | None => Raise KeyError
  end.

Section Scores.

Variable today : Z.
Variable strptime : string → option Z.

Definition urgency_score (due_date : string) : result Z :=
  match strptime due_date with
  | None => Raise ValueError
  | Some due =>
      let days_left := (due - today)%Z in
      Ok (if (days_left <? 0)%Z then 10
          else if (days_left =? 0)%Z then 9
          else if (days_left <=? 3)%Z then 8
          else if (days_left <=? 7)%Z then 6
          else if (days_left <=? 14)%Z then 4
          else 2)%Z
  end.

Definition importance_score (value : Z) : Z :=
  Z.max 1 (Z.min 10 value).

Definition effort_score (hours : pyfloat) : Z :=
  if fle hours (of_int 1) then 9
  else if fle hours (of_int 3) then 7
  else if fle hours (of_int 6) then 5
  else 3.

Definition final_priority (task : task) : result priority :=
  due ←! getitem (due_date task);
  u ←! urgency_score due;
  value ←! getitem (importance task);
  let i := importance_score value in
  hours ←! getitem (hours task);
  let e := effort_score hours in
  let final := FFin (inject_Z (u + i + e) / 3) in
  Ok {| urgency := u; importance_of := i; effort := e;
        final_score := round2 final |}.

End Scores.

End SimpleLogic.

(** ** Vocabulary of the views' properties *)

Definition is_dict (entry : raw_entry) : bool :=
  match entry with RawDict _ => true | RawOther => false end.

(** The entry gives no ['id']. *)
Definition without_id (entry : raw_entry) : bool :=
  match entry with
  | RawDict task => bool_decide (raw_id task = None)
  | RawOther => true
  end.

(** A task of a response sent back as an entry of a request. *)
Definition entry_of_task (task : Task) : raw_entry :=
  RawDict {|
    raw_id := task_id task;
    raw_title := task_title task;
    raw_due_date := due_date task;
    raw_estimated_hours := estimated_hours task;
    raw_importance := importance task;
    raw_dependencies :=
      match dependencies task with
      | Some (DepList l) => Some (RawList l)
      | _ => None
      end |}.

(** The three keys of [e] are what the scorer gives for its task among
    [all_tasks]. *)
Definition scored_as (today : Z) (strptime : string → option Z)
    (float_of_str : string → option pyfloat) (scorer : TaskScorer)
    (all_tasks : list Task) (e : enriched_task) : Prop :=
  ∃ r,
    score_task today strptime float_of_str scorer (e_task e) all_tasks
      = Ok r ∧
    priority_score e = score r ∧
    score_components e = components r ∧
    explanation e = generate_explanation scorer (e_task e) r ∧
    in_range 0 10 (score r).

(** [e2] does not score higher than [e1]. *)
Definition not_lower (e1 e2 : enriched_task) : Prop :=
  fle (priority_score e2) (priority_score e1) = true.

(** The score of [e] is the number [k]. *)
Definition has_score (k : Q) (e : enriched_task) : bool :=
  match priority_score e with
  | FFin q => Qeq_bool q k
  | _ => false
  end.

(** The keys of the sort: a finite number; no lower than another; the
    number [k]. *)
Definition key_finite {A} (x : A * pyfloat) : Prop := ∃ q, x.2 = FFin q.
Definition key_not_lower {A} (x y : A * pyfloat) : Prop :=
  fle y.2 x.2 = true.
Definition key_is {A} (k : Q) (x : A * pyfloat) : bool :=
  match x.2 with FFin q => Qeq_bool q k | _ => false end.

(** Five tasks and an entry that is no dictionary: a task with every key,
    two tasks that depend on each other, a task without any key, and one
    whose ['dependencies'] is a single identifier. *)
Definition example_tasks : list raw_entry :=
  [RawDict (RawTask (Some (IInt 1)) (Some (IStr "Report"))
              (Some (VStr "2024-01-01")) (Some (VInt 3)) (Some (VInt 8))
              (Some (RawList [])));
   RawOther;
   RawDict (RawTask (Some (IStr "a")) None None None None
              (Some (RawList [IStr "b"])));
   RawDict (RawTask (Some (IStr "b")) None None (Some (VStr "1.5")) None
              (Some (RawScalar (IStr "a"))));
   RawDict (RawTask None None None None None None);
   RawDict (RawTask (Some (IInt 6)) None None None (Some (VInt 10))
              (Some (RawScalar (IInt 1))))].

Definition example_request : request :=
  {| data_tasks := Some (TasksList example_tasks); data_strategy := None;
     query_tasks := None; query_strategy := None |}.

(** * Properties *)

(** ** Arithmetic helpers *)

Lemma Qltb_lt x y : Qltb x y = true ↔ (x < y)%Q.
Proof.
  unfold Qltb. rewrite negb_true_iff, <- not_true_iff_false, Qle_bool_iff.
  split; [apply Qnot_le_lt | apply Qlt_not_le].
Qed.

Lemma Qltb_ge x y : Qltb x y = false ↔ (y <= x)%Q.
Proof. unfold Qltb. by rewrite negb_false_iff, Qle_bool_iff. Qed.

Lemma flt_fin p q : flt (FFin p) (FFin q) = true ↔ (p < q)%Q.
Proof. apply Qltb_lt. Qed.

Lemma flt_fin_false p q : flt (FFin p) (FFin q) = false ↔ (q <= p)%Q.
Proof. apply Qltb_ge. Qed.

Lemma inject_Z_nonneg n : (0 <= n)%Z → (0 <= inject_Z n)%Q.
Proof. intros H. change 0%Q with (inject_Z 0). by rewrite <- Zle_Qle. Qed.

(** ** Strategy resolution *)

Lemma strategies_unknown name :
  name ∉ ["smart_balance"; "fastest_wins"; "high_impact"; "deadline_driven"] →
  strategies !! name = None.
Proof.
  intros Hname. unfold strategies. cbn [list_to_map foldr fst snd uncurry].
  repeat rewrite lookup_insert_ne
    by (intros <-; apply Hname; repeat constructor).
  apply lookup_empty.
Qed.

(** C6. The four strategy names resolve to their weight vectors, and every
    other name resolves to the weights of [smart_balance]; [_get_weights]
    is a total function, so no name makes it fail. *)
Theorem get_weights_resolution :
  _get_weights "smart_balance" = Weights 0.35 0.30 0.10 0.25 ∧
  _get_weights "fastest_wins" = Weights 0.20 0.20 0.50 0.10 ∧
  _get_weights "high_impact" = Weights 0.15 0.60 0.05 0.20 ∧
  _get_weights "deadline_driven" = Weights 0.70 0.15 0.05 0.10 ∧
  ∀ name : string,
    name ∉ ["smart_balance"; "fastest_wins"; "high_impact";
            "deadline_driven"] →
    _get_weights name = _get_weights "smart_balance".
Proof.
  repeat split; try by vm_compute.
  intros name Hname. unfold _get_weights at 1.
  by rewrite strategies_unknown.
Qed.

Lemma get_weights_resolution_witness :
  _get_weights "quickest" = _get_weights "smart_balance".
Proof.
  refine (proj2 (proj2 (proj2 (proj2 get_weights_resolution))) "quickest" _).
  apply not_elem_of_cons; split; [done |].
  apply not_elem_of_cons; split; [done |].
  apply not_elem_of_cons; split; [done |].
  apply not_elem_of_cons; split; [done |].
  apply not_elem_of_nil.
Defined.

(** The weights a constructed scorer holds: one of the four vectors. *)
Lemma get_weights_cases name :
  _get_weights name ∈
    [Weights 0.35 0.30 0.10 0.25; Weights 0.20 0.20 0.50 0.10;
     Weights 0.15 0.60 0.05 0.20; Weights 0.70 0.15 0.05 0.10].
Proof.
  destruct (decide (name ∈ ["smart_balance"; "fastest_wins"; "high_impact";
                             "deadline_driven"])) as [Hin | Hout].
  - repeat (apply elem_of_cons in Hin as [-> | Hin]; [vm_compute; set_solver |]).
    by apply elem_of_nil in Hin.
  - unfold _get_weights. rewrite strategies_unknown by done. set_solver.
Qed.

(** ** Urgency *)

Section Urgency.

Context (today : Z) (strptime : string → option Z).

(** A due date that denotes a day is scored by the ladder. *)
Lemma urgency_score_of_date due_date d :
  date_of strptime due_date = Some d →
  calculate_urgency_score today strptime due_date
    = Ok (urgency_of_days (d - today)).
Proof.
  unfold calculate_urgency_score.
  destruct due_date; cbn [date_of]; try discriminate.
  - by intros ->.
  - by intros [= ->].
Qed.

(** Any other due-date value gets the neutral [5.0]. *)
Lemma urgency_score_default due_date :
  date_of strptime due_date = None →
  calculate_urgency_score today strptime due_date = Ok (FFin 5.0).
Proof.
  unfold calculate_urgency_score.
  destruct due_date; cbn [date_of]; try discriminate; try done.
  by intros ->.
Qed.

Lemma overdue_sum_not_below_cap days_until :
  flt (fadd (of_int 10) (fmul (of_int (Z.abs days_until)) (FFin 0.1)))
      (of_int 10) = false.
Proof.
  unfold of_int, fmul, fadd. apply flt_fin_false.
  pose proof (inject_Z_nonneg (Z.abs days_until) (Z.abs_nonneg _)) as Habs.
  change (inject_Z 10) with 10%Q. lra.
Qed.

Lemma urgency_of_days_overdue days_until :
  (days_until < 0)%Z → urgency_of_days days_until = of_int 10.
Proof.
  intros Hneg. unfold urgency_of_days, pymin.
  apply Z.ltb_lt in Hneg as ->.
  by rewrite overdue_sum_not_below_cap.
Qed.

(** C10. Every due date before today scores exactly 10: the overdue
    score does not depend on the number of days overdue. *)
Theorem overdue_urgency_is_constant due_date d :
  date_of strptime due_date = Some d →
  (d < today)%Z →
  calculate_urgency_score today strptime due_date = Ok (of_int 10).
Proof.
  intros Hdate Hlt. rewrite (urgency_score_of_date _ _ Hdate).
  f_equal. apply urgency_of_days_overdue. lia.
Qed.


End Urgency.

Lemma overdue_urgency_is_constant_witness :
  calculate_urgency_score 739000 (λ _, None) (VDate 738990) = Ok (of_int 10).
Proof.
  apply (overdue_urgency_is_constant 739000 (λ _, None) (VDate 738990) 738990);
    [reflexivity | lia].
Defined.



(** ** Dependency fan-in *)

Lemma count_dependents_iterable task_id all_tasks n :
  forallb deps_iterable all_tasks = true →
  count_dependents task_id all_tasks n
    = Ok (n + length (List.filter (lists_dependency task_id) all_tasks))%nat.
Proof.
  revert n. induction all_tasks as [| task rest IH]; intros n Hiter.
  - simpl. f_equal. lia.
  - simpl in Hiter. apply andb_true_iff in Hiter as [Htask Hrest].
    cbn [count_dependents List.filter].
    unfold deps_iterable in Htask. unfold lists_dependency at 1.
    destruct (task_deps task) as [l |]; [| done].
    cbn [py_in bind]. rewrite IH by done.
    destruct (bool_decide (task_id ∈ l)); cbn [length]; f_equal; lia.
Qed.

Lemma count_dependents_not_iterable task_id all_tasks n :
  forallb deps_iterable all_tasks = false →
  count_dependents task_id all_tasks n = Raise TypeError.
Proof.
  revert n. induction all_tasks as [| task rest IH]; intros n Hiter.
  - done.
  - simpl in Hiter. cbn [count_dependents]. unfold deps_iterable in Hiter.
    destruct (task_deps task) as [l |]; [| done].
    cbn [py_in bind]. apply IH. done.
Qed.



(** ** Rounding *)

Lemma round_half_even_floor x :
  round_half_even x = Qfloor x ∨
  (round_half_even x = (Qfloor x + 1)%Z ∧ (inject_Z (Qfloor x) + (1 # 2) <= x)%Q).
Proof.
  unfold round_half_even.
  destruct (Qltb (x - inject_Z (Qfloor x)) (1 # 2)) eqn:Hlow; [by left |].
  apply Qltb_ge in Hlow.
  destruct (Qltb (1 # 2) (x - inject_Z (Qfloor x))) eqn:Hhigh.
  - right. split; [done | lra].
  - destruct (Z.even (Qfloor x)); [by left |]. right. split; [done | lra].
Qed.

(** The rounded value is within one half of the argument. *)
Lemma round_half_even_close x :
  (x - (1 # 2) <= inject_Z (round_half_even x))%Q ∧
  (inject_Z (round_half_even x) <= x + (1 # 2))%Q.
Proof.
  pose proof (Qfloor_le x) as Hfloor. pose proof (Qlt_floor x) as Hceil.
  rewrite inject_Z_plus in Hceil. change (inject_Z 1) with 1%Q in Hceil.
  unfold round_half_even.
  destruct (Qltb (x - inject_Z (Qfloor x)) (1 # 2)) eqn:Hlow.
  { apply Qltb_lt in Hlow. lra. }
  apply Qltb_ge in Hlow.
  destruct (Qltb (1 # 2) (x - inject_Z (Qfloor x))) eqn:Hhigh.
  { rewrite inject_Z_plus. change (inject_Z 1) with 1%Q. lra. }
  apply Qltb_ge in Hhigh.
  destruct (Z.even (Qfloor x)); [lra |].
  rewrite inject_Z_plus. change (inject_Z 1) with 1%Q. lra.
Qed.

(** Rounding keeps a value between two integers between them. *)
Lemma round_half_even_bounds (lo hi : Z) x :
  (inject_Z lo <= x)%Q → (x <= inject_Z hi)%Q →
  (lo <= round_half_even x <= hi)%Z.
Proof.
  intros Hlo Hhi.
  assert (lo <= Qfloor x)%Z as Hfloor_lo.
  { rewrite <- (Qfloor_Z lo). by apply Qfloor_resp_le. }
  assert (Qfloor x <= hi)%Z as Hfloor_hi.
  { rewrite <- (Qfloor_Z hi). by apply Qfloor_resp_le. }
  destruct (round_half_even_floor x) as [-> | [-> Hhalf]]; [lia |].
  split; [lia |].
  assert (inject_Z (Qfloor x) < inject_Z hi)%Q as Hlt by lra.
  rewrite <- Zlt_Qlt in Hlt. lia.
Qed.

Lemma round2_bounds q :
  (0 <= q)%Q → (q <= 10)%Q →
  ∃ n : Z, round2 (FFin q) = FFin (n # 100) ∧ (0 <= n <= 1000)%Z.
Proof.
  intros Hlo Hhi. exists (round_half_even (q * 100)). split; [done |].
  apply round_half_even_bounds.
  - change (inject_Z 0) with 0%Q. lra.
  - change (inject_Z 1000) with 1000%Q. lra.
Qed.

Lemma hundredths_range (n : Z) :
  (0 <= n <= 1000)%Z → (0 <= n # 100)%Q ∧ (n # 100 <= 10)%Q.
Proof. intros Hn. unfold Qle. simpl. lia. Qed.

Lemma hundredths_inject (n : Z) : (n # 100 == inject_Z n / 100)%Q.
Proof. unfold Qeq, Qdiv, Qmult, Qinv, inject_Z. simpl. lia. Qed.

(** ** Ranges of the four factor scores *)

Lemma in_range_fin lo hi q :
  (lo <= q)%Q → (q <= hi)%Q → in_range lo hi (FFin q).
Proof. intros. by exists q. Qed.

Lemma in_range_weaken lo hi lo' hi' x :
  (lo' <= lo)%Q → (hi <= hi')%Q → in_range lo hi x → in_range lo' hi' x.
Proof.
  intros Hlo Hhi (q & -> & Hq1 & Hq2). exists q. split; [done | split; lra].
Qed.

Lemma urgency_of_days_range days_until :
  in_range 0 10 (urgency_of_days days_until).
Proof.
  destruct (decide (days_until < 0)%Z) as [Hneg | Hpos].
  { rewrite urgency_of_days_overdue by done. apply in_range_fin; by vm_compute. }
  unfold urgency_of_days.
  destruct (days_until <? 0)%Z eqn:Hlt; [apply Z.ltb_lt in Hlt; lia |].
  repeat match goal with
  | |- in_range _ _ (if ?c then _ else _) =>
      destruct c eqn:?; [apply in_range_fin; by vm_compute |]
  end.
  apply Z.leb_gt in Heqb4.
  unfold pymax, of_int, fdiv_lit, fsub, fneg, fadd.
  assert (inject_Z 30 < inject_Z days_until)%Q as Hdays by by rewrite <- Zlt_Qlt.
  change (inject_Z 30) with 30%Q in Hdays.
  assert (inject_Z (days_until - 30) == inject_Z days_until - 30)%Q as Hsub.
  { unfold Z.sub. rewrite inject_Z_plus, inject_Z_opp. by change (inject_Z 30) with 30%Q. }
  assert (inject_Z (days_until - 30) / 30 == (inject_Z days_until - 30) * (1 # 30))%Q
    as Hdiv by (rewrite Hsub; reflexivity).
  change (inject_Z 0) with 0%Q. change (inject_Z 2) with 2%Q.
  destruct (flt _ _) eqn:Hcmp.
  - apply flt_fin in Hcmp. apply in_range_fin; lra.
  - apply in_range_fin; lra.
Qed.

Lemma clamp_importance_range x :
  in_range 1 10 (pymax (FFin 1.0) (pymin (FFin 10.0) x)).
Proof.
  unfold pymin.
  destruct (flt x (FFin 10.0)) eqn:Hmin.
  - unfold pymax. destruct (flt (FFin 1.0) x) eqn:Hmax.
    + destruct x as [q | [] |]; try done.
      apply flt_fin in Hmin, Hmax. apply in_range_fin; lra.
    + apply in_range_fin; lra.
  - by apply in_range_fin.
Qed.

Lemma effort_of_hours_range hours : in_range 0 10 (effort_of_hours hours).
Proof.
  unfold effort_of_hours.
  set (clamped := if flt hours (of_int 0) then of_int 0 else hours).
  repeat match goal with
  | |- in_range _ _ (if ?c then _ else _) =>
      destruct c eqn:?; [apply in_range_fin; by vm_compute |]
  end.
  destruct clamped as [q | [] |]; try done.
  - unfold fle, of_int in Heqb4. change (inject_Z 16) with 16%Q in Heqb4.
    apply not_true_iff_false in Heqb4. rewrite Qle_bool_iff in Heqb4.
    apply Qnot_le_lt in Heqb4.
    unfold pymax, of_int, fdiv_lit, fsub, fneg, fadd.
    change (inject_Z 0) with 0%Q. change (inject_Z 2) with 2%Q.
    change (inject_Z 16) with 16%Q.
    assert ((q + - (16)) / 8 == (q - 16) * (1 # 8))%Q as Hdiv by reflexivity.
    destruct (flt _ _) eqn:Hcmp.
    + apply flt_fin in Hcmp. apply in_range_fin; lra.
    + apply in_range_fin; lra.
  - by apply in_range_fin.
  - by apply in_range_fin.
Qed.

Lemma dependency_of_count_range dependent_count :
  in_range 0 10 (dependency_of_count dependent_count).
Proof.
  unfold dependency_of_count.
  repeat match goal with
  | |- in_range _ _ (if ?c then _ else _) =>
      destruct c eqn:?; [apply in_range_fin; by vm_compute |]
  end.
  apply Nat.eqb_neq in Heqb, Heqb0, Heqb1.
  unfold pymin, of_int, fmul, fadd.
  assert (inject_Z 2 < inject_Z (Z.of_nat dependent_count))%Q as Hcount.
  { rewrite <- Zlt_Qlt. lia. }
  assert (inject_Z (Z.of_nat dependent_count - 2)
            == inject_Z (Z.of_nat dependent_count) - 2)%Q as Hsub.
  { unfold Z.sub. rewrite inject_Z_plus, inject_Z_opp. reflexivity. }
  change (inject_Z 2) with 2%Q in Hcount.
  destruct (flt _ _) eqn:Hcmp.
  - apply flt_fin in Hcmp. apply in_range_fin; lra.
  - by apply in_range_fin.
Qed.

(** ** Aggregation *)

(** The weights of a constructed scorer are non-negative and sum to one. *)
Lemma init_weights_sum strategy :
  let w := weights (TaskScorer_init strategy) in
  (0 <= w_urgency w)%Q ∧ (0 <= w_importance w)%Q ∧ (0 <= w_effort w)%Q ∧
  (0 <= w_dependencies w)%Q ∧
  (w_urgency w + w_importance w + w_effort w + w_dependencies w == 1)%Q.
Proof.
  cbn [TaskScorer_init weights].
  pose proof (get_weights_cases strategy) as Hcases.
  repeat (apply elem_of_cons in Hcases as [-> | Hcases]; [by vm_compute |]).
  by apply elem_of_nil in Hcases.
Qed.

Section Scoring.

Context (today : Z) (strptime : string → option Z)
        (float_of_str : string → option pyfloat).

Lemma urgency_score_range due_date :
  ∃ x, calculate_urgency_score today strptime due_date = Ok x ∧
       in_range 0 10 x.
Proof.
  destruct (date_of strptime due_date) as [d |] eqn:Hdate.
  - rewrite (urgency_score_of_date _ _ _ _ Hdate).
    eexists. split; [done | apply urgency_of_days_range].
  - rewrite (urgency_score_default _ _ _ Hdate).
    eexists. split; [done | by apply in_range_fin].
Qed.

(** [float] fails with one of three exceptions. *)
Lemma py_float_cases v :
  (∃ x, py_float float_of_str v = Ok x) ∨
  py_float float_of_str v = Raise ValueError ∨
  py_float float_of_str v = Raise TypeError ∨
  py_float float_of_str v = Raise OverflowError.
Proof.
  destruct v; simpl; eauto.
  - unfold float_of_int. destruct (_ <? _)%Z; eauto.
  - destruct (float_of_str s); eauto.
Qed.

(** The importance score is a number from 1 to 10, unless [float]
    overflows. *)
Lemma importance_score_cases importance :
  (∃ x, calculate_importance_score float_of_str importance = Ok x ∧
        in_range 1 10 x) ∨
  calculate_importance_score float_of_str importance = Raise OverflowError.
Proof.
  unfold calculate_importance_score.
  destruct (py_float_cases importance) as [[x ->] | [-> | [-> | ->]]];
    cbn; eauto using clamp_importance_range.
  all: left; eexists; split; [done | by apply in_range_fin].
Qed.

(** So is the effort score a number from 0 to 10. *)
Lemma effort_score_cases estimated_hours :
  (∃ x, calculate_effort_score float_of_str estimated_hours = Ok x ∧
        in_range 0 10 x) ∨
  calculate_effort_score float_of_str estimated_hours = Raise OverflowError.
Proof.
  unfold calculate_effort_score.
  destruct (py_float_cases estimated_hours) as [[x ->] | [-> | [-> | ->]]];
    cbn; eauto using effort_of_hours_range.
  all: left; eexists; split; [done | by apply in_range_fin].
Qed.

Lemma dependency_score_range task_id all_tasks :
  ∃ x, calculate_dependency_score task_id all_tasks = Ok x ∧
       in_range 0 10 x.
Proof.
  unfold calculate_dependency_score.
  destruct (count_dependents task_id all_tasks 0) as [n | e]; cbn.
  - eexists. split; [done | apply dependency_of_count_range].
  - eexists. split; [done | by apply in_range_fin].
Qed.

(** The blend of four scores in [0, 10] lies in [0, 10]. *)
Lemma weighted_sum_range strategy u i e d :
  let w := weights (TaskScorer_init strategy) in
  (0 <= u)%Q ∧ (u <= 10)%Q → (0 <= i)%Q ∧ (i <= 10)%Q →
  (0 <= e)%Q ∧ (e <= 10)%Q → (0 <= d)%Q ∧ (d <= 10)%Q →
  (0 <= w_urgency w * u + w_importance w * i + w_effort w * e
        + w_dependencies w * d)%Q ∧
  (w_urgency w * u + w_importance w * i + w_effort w * e
     + w_dependencies w * d <= 10)%Q.
Proof.
  cbn [TaskScorer_init weights].
  pose proof (get_weights_cases strategy) as Hcases.
  intros [? ?] [? ?] [? ?] [? ?].
  repeat (apply elem_of_cons in Hcases as [-> | Hcases];
          [cbn [w_urgency w_importance w_effort w_dependencies]; lra |]).
  by apply elem_of_nil in Hcases.
Qed.

(** Rounding the blend: a number of hundredths, within 0.005 of the sum,
    still in [0, 10]. *)
Lemma blend_rounded strategy u i e d :
  let w := weights (TaskScorer_init strategy) in
  let sum := (w_urgency w * u + w_importance w * i + w_effort w * e
              + w_dependencies w * d)%Q in
  (0 <= u)%Q ∧ (u <= 10)%Q → (0 <= i)%Q ∧ (i <= 10)%Q →
  (0 <= e)%Q ∧ (e <= 10)%Q → (0 <= d)%Q ∧ (d <= 10)%Q →
  ∃ n : Z,
    round2 (FFin sum) = FFin (n # 100) ∧
    (sum - (5 # 1000) <= n # 100)%Q ∧ (n # 100 <= sum + (5 # 1000))%Q ∧
    (0 <= n # 100)%Q ∧ (n # 100 <= 10)%Q.
Proof.
  intros w sum Hur Hir Her Hdr.
  pose proof (weighted_sum_range strategy u i e d Hur Hir Her Hdr)
    as [Hsum0 Hsum10].
  fold w in Hsum0, Hsum10. fold sum in Hsum0, Hsum10.
  assert (0 <= round_half_even (sum * 100) <= 1000)%Z as Hn.
  { apply round_half_even_bounds;
      [change (inject_Z 0) with 0%Q | change (inject_Z 1000) with 1000%Q];
      lra. }
  exists (round_half_even (sum * 100)). split; [done |].
  pose proof (round_half_even_close (sum * 100)) as [Hclose1 Hclose2].
  pose proof (hundredths_inject (round_half_even (sum * 100))) as Hinj.
  assert (inject_Z (round_half_even (sum * 100)) / 100
            == inject_Z (round_half_even (sum * 100)) * (1 # 100))%Q
    as Hdiv by reflexivity.
  pose proof (hundredths_range _ Hn) as [? ?].
  repeat split; try done; lra.
Qed.


(** The [error] entry of a result of [score_task] is the message of the
    overflow of [float], if there is one. *)
Lemma score_task_error_entry self task all_tasks r :
  score_task today strptime float_of_str self task all_tasks = Ok r →
  error r = None ∨ error r = Some "int too large to convert to float".
Proof.
  unfold score_task.
  destruct (urgency_score_range (default VNone (due_date task)))
    as (u & -> & _).
  destruct (importance_score_cases (default VNone (importance task)))
    as [(i & -> & _) | ->]; [| cbn; intros [= <-]; by right].
  destruct (effort_score_cases (default VNone (estimated_hours task)))
    as [(e & -> & _) | ->]; [| cbn; intros [= <-]; by right].
  destruct (dependency_score_range (task_key task) all_tasks)
    as (d & -> & _).
  cbn. intros [= <-]. by left.
Qed.


(** C5, at its failing input. [float] overflows on an integer of 401
    digits, and neither handler of [calculate_importance_score] or
    [calculate_effort_score] names [OverflowError]: both raise instead of
    returning the neutral 5.0.  [score_task] catches the exception and
    returns the all-zero result. *)
Theorem factor_scores_raise_overflow :
  calculate_importance_score float_of_str (VInt (10 ^ 400))
    = Raise OverflowError ∧
  calculate_effort_score float_of_str (VInt (10 ^ 400))
    = Raise OverflowError ∧
  score_task today strptime float_of_str (TaskScorer_init "smart_balance")
    {| task_id := Some (IInt 1); task_title := None; due_date := None;
       estimated_hours := None; importance := Some (VInt (10 ^ 400));
       dependencies := None |} []
    = Ok {| score := FFin 0.0;
            components := list_to_map [
              ("urgency", FFin 0.0); ("importance", FFin 0.0);
              ("effort", FFin 0.0); ("dependencies", FFin 0.0)];
            error := Some "int too large to convert to float" |}.
Proof. by vm_compute. Qed.

End Scoring.


(** ** The end-to-end scenario *)

Section Scenario.

Context (today : Z) (strptime : string → option Z)
        (float_of_str : string → option pyfloat).

Lemma score_full_task self i title due hours imp all_tasks days :
  date_of strptime due = Some (today + days)%Z →
  score_task today strptime float_of_str self
    (full_task i title due hours imp) all_tasks
  = try_except_Exception
      (importance ←! calculate_importance_score float_of_str (VInt imp);
       effort ←! calculate_effort_score float_of_str (VInt hours);
       dependencies ←! calculate_dependency_score (IInt i) all_tasks;
       Ok {| score := round2 (fadd (fadd (fadd
               (fmul (FFin (w_urgency (weights self))) (urgency_of_days days))
               (fmul (FFin (w_importance (weights self))) importance))
               (fmul (FFin (w_effort (weights self))) effort))
               (fmul (FFin (w_dependencies (weights self))) dependencies));
             components := list_to_map [
               ("urgency", round2 (urgency_of_days days));
               ("importance", round2 importance);
               ("effort", round2 effort);
               ("dependencies", round2 dependencies)];
             error := None |})
      (λ e,
       Ok {| score := FFin 0.0;
             components := list_to_map [
               ("urgency", FFin 0.0);
               ("importance", FFin 0.0);
               ("effort", FFin 0.0);
               ("dependencies", FFin 0.0)];
             error := Some (exn_message e) |}).
Proof.
  intros Hdate. unfold score_task.
  cbn [full_task due_date importance estimated_hours default task_key task_id].
  rewrite (urgency_score_of_date _ _ _ _ Hdate).
  by replace (today + days - today)%Z with days by lia.
Qed.

(** C7. With [smart_balance], the task due today (importance 10, two
    hours) scores strictly higher than the task due in 30 days
    (importance 4, one hour) and the task due in 7 days (importance 9,
    eight hours): 7.12 against 2.8 and 5.2; sorted by score, highest first,
    it comes first. *)
Theorem critical_task_ranks_first due_a due_b due_c :
  date_of strptime due_a = Some today →
  date_of strptime due_b = Some (today + 30)%Z →
  date_of strptime due_c = Some (today + 7)%Z →
  let scorer := TaskScorer_init "smart_balance" in
  let a := full_task 1 "Critical Bug Fix" due_a 2 10 in
  let b := full_task 2 "Documentation Update" due_b 1 4 in
  let c := full_task 3 "Infrastructure Setup" due_c 8 9 in
  ∃ ra rb rc,
    score_task today strptime float_of_str scorer a [a; b; c] = Ok ra ∧
    score_task today strptime float_of_str scorer b [a; b; c] = Ok rb ∧
    score_task today strptime float_of_str scorer c [a; b; c] = Ok rc ∧
    score ra = FFin (712 # 100) ∧
    score rb = FFin (280 # 100) ∧
    score rc = FFin (520 # 100) ∧
    flt (score rb) (score ra) = true ∧
    flt (score rc) (score ra) = true ∧
    sorted_by_score [(a, score ra); (b, score rb); (c, score rc)]
      = [(a, score ra); (c, score rc); (b, score rb)].
Proof.
  intros Ha Hb Hc scorer a b c.
  rewrite <- (Z.add_0_r today) in Ha.
  eexists _, _, _.
  split; [unfold a at 1; rewrite (score_full_task _ _ _ _ _ _ _ _ Ha);
          by vm_compute |].
  split; [unfold b at 1; rewrite (score_full_task _ _ _ _ _ _ _ _ Hb);
          by vm_compute |].
  split; [unfold c at 1; rewrite (score_full_task _ _ _ _ _ _ _ _ Hc);
          by vm_compute |].
  by vm_compute.
Qed.

End Scenario.

Lemma critical_task_ranks_first_witness :
  let scorer := TaskScorer_init "smart_balance" in
  let a := full_task 1 "Critical Bug Fix" (VDate 739000) 2 10 in
  let b := full_task 2 "Documentation Update" (VDate 739030) 1 4 in
  let c := full_task 3 "Infrastructure Setup" (VDate 739007) 8 9 in
  ∃ ra rb rc,
    score_task 739000 (λ _, None) (λ _, None) scorer a [a; b; c] = Ok ra ∧
    score_task 739000 (λ _, None) (λ _, None) scorer b [a; b; c] = Ok rb ∧
    score_task 739000 (λ _, None) (λ _, None) scorer c [a; b; c] = Ok rc ∧
    score ra = FFin (712 # 100) ∧
    score rb = FFin (280 # 100) ∧
    score rc = FFin (520 # 100) ∧
    flt (score rb) (score ra) = true ∧
    flt (score rc) (score ra) = true ∧
    sorted_by_score [(a, score ra); (b, score rb); (c, score rc)]
      = [(a, score ra); (c, score rc); (b, score rb)].
Proof.
  apply (critical_task_ranks_first 739000 (λ _, None) (λ _, None)
           (VDate 739000) (VDate 739030) (VDate 739007));
    reflexivity.
Defined.

(** ** Explanations *)

Lemma string_length_pos (s : string) : s ≠ "" → (0 < String.length s)%nat.
Proof. destruct s; [done | simpl; lia]. Qed.

Lemma string_concat_nonempty sep (l : list string) :
  l ≠ [] → Forall (λ s, s ≠ "") l → String.concat sep l ≠ "".
Proof.
  intros Hl Hall. destruct Hall as [| s rest Hs Hrest]; [done |].
  destruct rest; simpl; [done |]. by destruct s.
Qed.

Lemma explanation_reasons_nonempty self components :
  Forall (λ s : string, s ≠ "") (explanation_reasons self components).
Proof.
  unfold explanation_reasons.
  repeat match goal with
  | |- context [if ?c then _ else _] => destruct c
  end; cbn [app]; repeat constructor; done.
Qed.

Lemma explanation_reasons_empty self components :
  explanation_reasons self components = [] ↔
  no_threshold_met self components = true.
Proof.
  unfold explanation_reasons, no_threshold_met.
  repeat match goal with
  | |- context [if ?c then _ else _] => destruct c
  end; cbn [app negb andb]; split; intros H; try done;
    rewrite ?andb_false_r in H; done.
Qed.

Lemma tag_join_is_not_message self components :
  explanation_reasons self components ≠ [] →
  String.concat " • " (explanation_reasons self components)
    ≠ "📊 Balanced priority across all factors".
Proof.
  unfold explanation_reasons.
  repeat match goal with
  | |- context [if ?c then _ else _] => destruct c
  end; cbn [app String.concat]; intros Hne; (done || discriminate).
Qed.

(** C8. The explanation is never empty: it is the tags whose thresholds
    were met joined by [" • "], or, exactly when no threshold was met, the
    fixed message. *)
Theorem generate_explanation_nonempty self task score_data :
  (0 < String.length (generate_explanation self task score_data))%nat ∧
  generate_explanation self task score_data =
    match explanation_reasons self (components score_data) with
    | [] => "📊 Balanced priority across all factors"
    | tag :: tags => String.concat " • " (tag :: tags)
    end ∧
  (no_threshold_met self (components score_data) = true ↔
   generate_explanation self task score_data
     = "📊 Balanced priority across all factors").
Proof.
  unfold generate_explanation.
  pose proof (explanation_reasons_nonempty self (components score_data))
    as Hall.
  pose proof (explanation_reasons_empty self (components score_data))
    as Hempty.
  destruct (explanation_reasons self (components score_data))
    as [| tag tags] eqn:Hreasons.
  - rewrite bool_decide_eq_true_2 by done.
    split; [simpl; lia |]. split; [done |]. by rewrite <- Hempty.
  - rewrite bool_decide_eq_false_2 by done.
    split; [apply string_length_pos; by apply string_concat_nonempty |].
    split; [done |]. split.
    + intros Hnone. by apply Hempty in Hnone.
    + intros Hmsg. exfalso.
      apply (tag_join_is_not_message self (components score_data));
        by rewrite Hreasons.
Qed.

(** ** Circular dependencies *)

Lemma dfs_unfold fuel graph node path st :
  dfs (S fuel) graph node path st =
    match py_iter (default (DepList []) (graph !! node)) with
    | Raise e => Some (Raise e)
    | Ok neighbors =>
        match dfs_neighbors (dfs fuel graph) (path ++ [node]) neighbors
                {| visited := {[node]} ∪ visited st;
                   rec_stack := {[node]} ∪ rec_stack st;
                   cycles := cycles st |} with
        | Some (Ok st) => Some (rec_stack_remove node st)
        | stop => stop
        end
    end.
Proof. done. Qed.

Lemma dfs_neighbors_unvisited call path neighbor rest st :
  neighbor ∉ visited st →
  dfs_neighbors call path (neighbor :: rest) st =
    match call neighbor path st with
    | Some (Ok st') => dfs_neighbors call path rest st'
    | stop => stop
    end.
Proof. intros H. cbn [dfs_neighbors]. by rewrite bool_decide_eq_true_2. Qed.

Lemma dfs_neighbors_on_stack call path neighbor rest st :
  neighbor ∈ visited st → neighbor ∈ rec_stack st →
  dfs_neighbors call path (neighbor :: rest) st =
    match record_cycle neighbor path st with
    | Ok st' => dfs_neighbors call path rest st'
    | Raise e => Some (Raise e)
    end.
Proof.
  intros Hv Hr. cbn [dfs_neighbors].
  rewrite bool_decide_eq_false_2 by (intros Hn; by apply Hn).
  by rewrite bool_decide_eq_true_2.
Qed.

Lemma dfs_neighbors_finished call path neighbor rest st :
  neighbor ∈ visited st → neighbor ∉ rec_stack st →
  dfs_neighbors call path (neighbor :: rest) st =
    dfs_neighbors call path rest st.
Proof.
  intros Hv Hr. cbn [dfs_neighbors].
  rewrite bool_decide_eq_false_2 by (intros Hn; by apply Hn).
  by rewrite bool_decide_eq_false_2.
Qed.

Lemma check_all_nodes_unvisited fuel graph task rest st :
  task_key task ∉ visited st →
  check_all_nodes fuel graph (task :: rest) st =
    match dfs fuel graph (task_key task) [] st with
    | Some (Ok st') => check_all_nodes fuel graph rest st'
    | stop => stop
    end.
Proof. intros H. cbn [check_all_nodes]. by rewrite bool_decide_eq_true_2. Qed.

Lemma check_all_nodes_visited fuel graph task rest st :
  task_key task ∈ visited st →
  check_all_nodes fuel graph (task :: rest) st =
    check_all_nodes fuel graph rest st.
Proof.
  intros H. cbn [check_all_nodes].
  by rewrite bool_decide_eq_false_2 by (intros Hn; by apply Hn).
Qed.

Lemma rec_stack_remove_present node st :
  node ∈ rec_stack st →
  rec_stack_remove node st =
    Ok {| visited := visited st;
          rec_stack := rec_stack st ∖ {[node]};
          cycles := cycles st |}.
Proof. intros H. unfold rec_stack_remove. by rewrite bool_decide_eq_true_2. Qed.

(** C1. Two tasks that depend on each other give exactly one cycle, the
    set of the two identifiers; the chain 1, 2 on 1, 3 on 2 gives none. *)
Theorem detects_mutual_cycle_not_chain a b :
  a ≠ b →
  detect_circular_dependencies [dep_task a [b]; dep_task b [a]]
    = Some (Ok [ {[a; b]} ]) ∧
  detect_circular_dependencies
    [dep_task (IInt 1) []; dep_task (IInt 2) [IInt 1];
     dep_task (IInt 3) [IInt 2]]
    = Some (Ok []).
Proof.
  intros Hab. split; [| by vm_compute].
  unfold detect_circular_dependencies.
  change (dfs_fuel _) with 5%nat.
  change (build_graph _)
    with (<[b := DepList [a]]> (<[a := DepList [b]]> (∅ : gmap ident deps_value))).
  rewrite check_all_nodes_unvisited by set_solver.
  change (task_key (dep_task a [b])) with a.
  rewrite dfs_unfold, lookup_insert_ne, lookup_insert_eq by done.
  cbn [default from_option id py_iter visited rec_stack cycles app].
  rewrite dfs_neighbors_unvisited by set_solver.
  rewrite dfs_unfold, lookup_insert_eq.
  cbn [default from_option id py_iter visited rec_stack cycles app].
  rewrite dfs_neighbors_on_stack by set_solver.
  unfold record_cycle. cbn [list_index]. rewrite decide_True by done.
  cbn [drop app cycles visited rec_stack].
  rewrite bool_decide_eq_false_2 by set_solver.
  cbn [dfs_neighbors].
  rewrite rec_stack_remove_present by (cbn; set_solver).
  cbn [dfs_neighbors visited rec_stack cycles].
  rewrite rec_stack_remove_present by (cbn; set_solver).
  cbn [visited rec_stack cycles].
  rewrite check_all_nodes_visited by (cbn; set_solver).
  cbn [check_all_nodes cycles].
  do 3 f_equal. cbn [list_to_set]. set_solver.
Qed.

Lemma detects_mutual_cycle_not_chain_witness :
  detect_circular_dependencies
    [dep_task (IStr "a") [IStr "b"]; dep_task (IStr "b") [IStr "a"]]
    = Some (Ok [ {[IStr "a"; IStr "b"]} ]) ∧
  detect_circular_dependencies
    [dep_task (IInt 1) []; dep_task (IInt 2) [IInt 1];
     dep_task (IInt 3) [IInt 2]]
    = Some (Ok []).
Proof.
  apply (detects_mutual_cycle_not_chain (IStr "a") (IStr "b")). discriminate.
Defined.

(** *** The invariants of [dfs] *)

Lemma list_index_elem x path :
  x ∈ path → ∃ i, list_index x path = Some i.
Proof.
  induction path as [| y rest IH]; intros Hin.
  - by apply elem_of_nil in Hin.
  - cbn [list_index]. destruct (decide (y = x)) as [-> | Hne]; [eauto |].
    apply elem_of_cons in Hin as [-> | Hin]; [done |].
    destruct (IH Hin) as [i ->]. eauto.
Qed.

Lemma list_index_last x path :
  x ∉ path → list_index x (path ++ [x]) = Some (length path).
Proof.
  induction path as [| y rest IH]; intros Hout; cbn [list_index app length].
  - by rewrite decide_True.
  - apply not_elem_of_cons in Hout as [Hne Hout].
    rewrite decide_False by done. by rewrite IH.
Qed.

Lemma dfs_step_refl st : dfs_step st st.
Proof. by repeat split. Qed.

Lemma dfs_step_trans st1 st2 st3 :
  dfs_step st1 st2 → dfs_step st2 st3 → dfs_step st1 st3.
Proof.
  intros (Hr1 & Hv1 & Hc1) (Hr2 & Hv2 & Hc2).
  repeat split; [congruence | set_solver | eauto].
Qed.

(** Nodes of the universe still to visit: the measure of [dfs]. *)
Lemma universe_left_mono (universe : gset ident) st st' :
  visited st ⊆ visited st' →
  size (universe ∖ visited st') ≤ size (universe ∖ visited st).
Proof. intros Hsub. apply subseteq_size. set_solver. Qed.

Lemma universe_left_decreases (universe : gset ident) node st st' :
  node ∈ universe → node ∉ visited st →
  {[node]} ∪ visited st ⊆ visited st' →
  size (universe ∖ visited st') < size (universe ∖ visited st).
Proof.
  intros Hin Hout Hsub. apply subset_size. split; [set_solver |].
  intros Hback. assert (node ∈ universe ∖ visited st') as Hbad by set_solver.
  set_solver.
Qed.

Section Dfs.

Context (graph : gmap ident deps_value) (universe : gset ident).

(** No entry of the graph is a value that cannot be iterated. *)
Hypothesis graph_iterable : ∀ node, graph !! node ≠ Some DepNotIterable.
(** The universe holds every neighbour. *)
Hypothesis universe_closed :
  ∀ node m, m ∈ neighbors_of graph node → m ∈ universe.

(** Recording a cycle for a neighbour on the path succeeds and only
    extends [cycles]. *)
Lemma record_cycle_spec neighbor path st :
  neighbor ∈ path →
  ∃ st' i,
    record_cycle neighbor path st = Ok st' ∧
    list_index neighbor path = Some i ∧
    visited st' = visited st ∧ rec_stack st' = rec_stack st ∧
    (∀ c, c ∈ cycles st → c ∈ cycles st') ∧
    (∀ c, c ∈ cycles st' →
          c ∈ cycles st ∨ c = list_to_set (drop i path ++ [neighbor])) ∧
    list_to_set (drop i path ++ [neighbor]) ∈ cycles st'.
Proof.
  intros Hin. destruct (list_index_elem _ _ Hin) as [i Hi].
  unfold record_cycle. rewrite Hi.
  destruct (bool_decide _) eqn:Hseen.
  - apply bool_decide_eq_true_1 in Hseen.
    exists st, i. repeat split; eauto.
  - eexists _, i. split; [done |]. cbn [visited rec_stack cycles].
    repeat split; try done.
    + intros c Hc. apply elem_of_app. by left.
    + intros c Hc. apply elem_of_app in Hc as [Hc | Hc]; [by left |].
      right. by apply list_elem_of_singleton in Hc.
    + apply elem_of_app. right. by apply list_elem_of_singleton.
Qed.

(** The loop of [dfs], for any [call] that meets [call_spec]. *)
Lemma dfs_neighbors_spec fuel call :
  call_spec graph universe fuel call →
  ∀ neighbors path st,
    dfs_inv graph universe path st →
    (∀ m, m ∈ neighbors → m ∈ universe) →
    size (universe ∖ visited st) < fuel →
    ∃ st', dfs_neighbors call path neighbors st = Some (Ok st') ∧
           dfs_step st st' ∧ dfs_inv graph universe path st' ∧
           (∀ p node, path = p ++ [node] → node ∉ p → node ∈ neighbors →
                      {[node]} ∈ cycles st').
Proof.
  intros Hcall neighbors.
  induction neighbors as [| neighbor rest IH]; intros path st Hinv Huni Hfuel.
  { exists st. split; [done |]. split; [apply dfs_step_refl |].
    split; [done |]. intros p node _ _ Hin. by apply elem_of_nil in Hin. }
  assert (∀ m, m ∈ rest → m ∈ universe) as Hrest
    by (intros m Hm; apply Huni; by right).
  destruct (decide (neighbor ∈ visited st)) as [Hvis | Hnew].
  - destruct (decide (neighbor ∈ rec_stack st)) as [Hstack | Hdone].
    + (* a back edge: the cycle is recorded *)
      rewrite dfs_neighbors_on_stack by done.
      destruct Hinv as (Hpath & Hsub & Hu & Hself).
      destruct (record_cycle_spec neighbor path st) as
        (st1 & i & -> & Hi & Hv1 & Hr1 & Hc1 & _ & Hnew);
        [by apply Hpath |].
      assert (dfs_inv graph universe path st1) as Hinv1.
      { repeat split; rewrite ?Hv1, ?Hr1; try done; try apply Hpath.
        intros u Hu1 Hu2 Hu3. rewrite Hv1 in Hu1. rewrite Hr1 in Hu2.
        apply Hc1. by apply Hself. }
      destruct (IH path st1 Hinv1 Hrest) as (st' & -> & Hstep & Hinv' & Hloops);
        [by rewrite Hv1 |].
      exists st'. split; [done |]. split.
      { eapply dfs_step_trans; [| done].
        split; [done | split; [by rewrite Hv1 | done]]. }
      split; [done |].
      intros p node -> Hp Hin.
      apply elem_of_cons in Hin as [-> | Hin]; [| by eapply Hloops].
      rewrite list_index_last in Hi by done. injection Hi as <-.
      rewrite drop_app_length in Hnew.
      destruct Hstep as (_ & _ & Hmono). apply Hmono.
      replace ({[neighbor]} : gset ident)
        with (list_to_set ([neighbor] ++ [neighbor]) : gset ident)
        by set_solver.
      done.
    + (* already finished *)
      rewrite dfs_neighbors_finished by done.
      destruct (IH path st Hinv Hrest Hfuel) as (st' & -> & Hstep & Hinv' & Hloops).
      exists st'. repeat split; try done; try apply Hstep; try apply Hinv'.
      intros p node -> Hp Hin.
      apply elem_of_cons in Hin as [-> | Hin]; [| by eapply Hloops].
      exfalso. apply Hdone. apply Hinv. set_solver.
  - (* not visited yet: the recursive call *)
    rewrite dfs_neighbors_unvisited by done.
    destruct (Hcall neighbor path st Hinv Hnew) as
      (st1 & -> & Hstep1 & Hinv1 & Hvis1); [apply Huni; by left | done |].
    destruct (IH path st1 Hinv1 Hrest) as (st' & -> & Hstep & Hinv' & Hloops).
    { eapply Nat.le_lt_trans; [| exact Hfuel].
      apply universe_left_mono, Hstep1. }
    exists st'. split; [done |]. split; [by eapply dfs_step_trans |].
    split; [done |].
    intros p node -> Hp Hin.
    apply elem_of_cons in Hin as [-> | Hin]; [| by eapply Hloops].
    exfalso. apply Hnew. apply Hinv. apply Hinv. set_solver.
Qed.

(** [dfs] itself: with fuel above the number of unvisited nodes it
    returns, leaves [rec_stack] as it found it and keeps the invariant. *)
Lemma dfs_spec fuel : call_spec graph universe fuel (dfs fuel graph).
Proof.
  induction fuel as [| fuel IH]; intros node path st Hinv Hnew Hnode Hfuel;
    [lia |].
  destruct Hinv as (Hpath & Hsub & Hu & Hself).
  assert (node ∉ rec_stack st) as Hnostack by set_solver.
  assert (node ∉ path) as Hnopath by (intros Hin; by apply Hnostack, Hpath).
  rewrite dfs_unfold.
  assert (py_iter (default (DepList []) (graph !! node))
            = Ok (neighbors_of graph node)) as ->.
  { unfold neighbors_of. pose proof (graph_iterable node) as Hiter.
    destruct (graph !! node) as [[l |] |]; done. }
  set (st1 := {| visited := {[node]} ∪ visited st;
                 rec_stack := {[node]} ∪ rec_stack st;
                 cycles := cycles st |}).
  assert (dfs_inv graph universe (path ++ [node]) st1) as Hinv1.
  { repeat split; cbn [visited rec_stack cycles st1].
    - intros Hx. apply elem_of_app in Hx as [Hx | Hx]; [| set_solver].
      apply Hpath in Hx. set_solver.
    - intros Hx. apply elem_of_app.
      apply elem_of_union in Hx as [Hx | Hx]; [right; set_solver |].
      left. by apply Hpath.
    - set_solver.
    - set_solver.
    - intros u Hvis Hoff Hloop. cbn [visited rec_stack cycles st1] in *.
      apply Hself; [set_solver | set_solver | done]. }
  destruct (dfs_neighbors_spec fuel (dfs fuel graph) IH
              (neighbors_of graph node) (path ++ [node]) st1 Hinv1)
    as (st2 & -> & (Hr2 & Hv2 & Hc2) & Hinv2 & Hloops).
  { intros m. apply universe_closed. }
  { assert (size (universe ∖ visited st1) < size (universe ∖ visited st))
      by (apply (universe_left_decreases universe node); [done | done | done]).
    lia. }
  destruct Hinv2 as (Hpath2 & Hsub2 & Hu2 & Hself2).
  cbn [visited rec_stack cycles st1] in Hr2, Hv2, Hc2.
  rewrite rec_stack_remove_present by (rewrite Hr2; set_solver).
  eexists. split; [done |]. cbn [visited rec_stack cycles].
  assert (rec_stack st2 ∖ {[node]} = rec_stack st) as Hback
    by (rewrite Hr2; set_solver).
  split; [repeat split; [done | set_solver | done] |].
  split; [| set_solver].
  repeat split; cbn [visited rec_stack cycles]; rewrite ?Hback; try done.
  - apply Hpath.
  - apply Hpath.
  - set_solver.
  - intros u Hvis Hoff Hloop. cbn [visited rec_stack cycles] in *.
    destruct (decide (u = node)) as [-> | Hne].
    + by apply (Hloops path node).
    + apply Hself2; [done | rewrite Hr2; set_solver | done].
Qed.

End Dfs.

(** *** The graph of a task list *)

Lemma build_graph_snoc tasks task :
  build_graph (tasks ++ [task])
    = <[task_key task := task_deps task]> (build_graph tasks).
Proof. unfold build_graph. by rewrite foldl_app. Qed.

(** Every entry of the graph comes from a task of the list. *)
Lemma build_graph_lookup tasks node deps :
  build_graph tasks !! node = Some deps →
  ∃ task, task ∈ tasks ∧ task_key task = node ∧ task_deps task = deps.
Proof.
  induction tasks as [| task tasks IH] using rev_ind.
  { intros Hlook. by destruct (lookup_empty_Some (M := gmap ident) node deps). }
  rewrite build_graph_snoc.
  destruct (decide (task_key task = node)) as [<- | Hne].
  - rewrite lookup_insert_eq. intros [= <-].
    exists task. split; [| done]. apply elem_of_app. right. by left.
  - rewrite lookup_insert_ne by done. intros Hlook.
    destruct (IH Hlook) as (t & Hin & Hkey & Hdeps).
    exists t. split; [| done]. apply elem_of_app. by left.
Qed.

(** The entry of an identifier is that of the last task that carries it. *)
Lemma build_graph_last before task after :
  Forall (λ later, task_key later ≠ task_key task) after →
  build_graph (before ++ task :: after) !! task_key task
    = Some (task_deps task).
Proof.
  induction after as [| later after IH] using rev_ind; intros Hlater.
  - rewrite build_graph_snoc. apply lookup_insert_eq.
  - apply Forall_app in Hlater as [Hafter Hlast].
    rewrite Forall_singleton in Hlast.
    replace (before ++ task :: after ++ [later])
      with ((before ++ task :: after) ++ [later])
      by (by rewrite <- app_assoc).
    rewrite build_graph_snoc, lookup_insert_ne by done. by apply IH.
Qed.

Lemma mentioned_key tasks task :
  task ∈ tasks → task_key task ∈ mentioned tasks.
Proof.
  intros Hin. apply list_elem_of_In, in_flat_map.
  exists task. split; [by apply list_elem_of_In | by left].
Qed.

Lemma mentioned_dependency tasks task deps m :
  task ∈ tasks → task_deps task = DepList deps → m ∈ deps →
  m ∈ mentioned tasks.
Proof.
  intros Hin Hdeps Hm. apply list_elem_of_In, in_flat_map.
  exists task. split; [by apply list_elem_of_In |].
  rewrite Hdeps. right. by apply list_elem_of_In.
Qed.

Lemma neighbors_mentioned tasks node m :
  m ∈ neighbors_of (build_graph tasks) node →
  m ∈ (list_to_set (mentioned tasks) : gset ident).
Proof.
  unfold neighbors_of. intros Hm. apply elem_of_list_to_set.
  destruct (build_graph tasks !! node) as [deps |] eqn:Hlook;
    cbn [default from_option id] in Hm; [| by apply elem_of_nil in Hm].
  destruct (build_graph_lookup _ _ _ Hlook) as (task & Hin & _ & Hdeps).
  destruct deps as [l |]; [| by apply elem_of_nil in Hm].
  by eapply mentioned_dependency.
Qed.

Lemma build_graph_iterable tasks node :
  Forall (λ task, deps_iterable task = true) tasks →
  build_graph tasks !! node ≠ Some DepNotIterable.
Proof.
  intros Hall Hlook.
  destruct (build_graph_lookup _ _ _ Hlook) as (task & Hin & _ & Hdeps).
  rewrite Forall_forall in Hall. specialize (Hall task Hin).
  unfold deps_iterable in Hall. by rewrite Hdeps in Hall.
Qed.

Lemma size_list_to_set_le (l : list ident) :
  size (list_to_set l : gset ident) ≤ length l.
Proof.
  induction l as [| x l IH]; cbn [list_to_set length].
  - by rewrite size_empty.
  - rewrite size_union_alt, size_singleton.
    assert (size (list_to_set l ∖ {[x]} : gset ident)
              ≤ size (list_to_set l : gset ident))
      by (apply subseteq_size; set_solver).
    lia.
Qed.

(** The second loop of [detect_circular_dependencies]. *)
Lemma check_all_nodes_spec graph universe fuel :
  (∀ node, graph !! node ≠ Some DepNotIterable) →
  (∀ node m, m ∈ neighbors_of graph node → m ∈ universe) →
  ∀ tasks st,
    dfs_inv graph universe [] st →
    (∀ task, task ∈ tasks → task_key task ∈ universe) →
    size (universe ∖ visited st) < fuel →
    ∃ st', check_all_nodes fuel graph tasks st = Some (Ok st') ∧
           dfs_step st st' ∧ dfs_inv graph universe [] st' ∧
           (∀ task, task ∈ tasks → task_key task ∈ visited st').
Proof.
  intros Hiter Hclosed tasks.
  induction tasks as [| task rest IH]; intros st Hinv Hkeys Hfuel.
  { exists st. split; [done |]. split; [apply dfs_step_refl |].
    split; [done |]. intros task Hin. by apply elem_of_nil in Hin. }
  assert (∀ t, t ∈ rest → task_key t ∈ universe) as Hrest
    by (intros t Ht; apply Hkeys; by right).
  destruct (decide (task_key task ∈ visited st)) as [Hvis | Hnew].
  - rewrite check_all_nodes_visited by done.
    destruct (IH st Hinv Hrest Hfuel) as (st' & -> & Hstep & Hinv' & Hall).
    exists st'. repeat split; try done; try apply Hstep; try apply Hinv'.
    intros t Ht. apply elem_of_cons in Ht as [-> | Ht]; [| by apply Hall].
    by apply Hstep.
  - rewrite check_all_nodes_unvisited by done.
    destruct (dfs_spec graph universe Hiter Hclosed fuel
                (task_key task) [] st Hinv Hnew)
      as (st1 & -> & Hstep1 & Hinv1 & Hvis1); [apply Hkeys; by left | done |].
    destruct (IH st1 Hinv1 Hrest) as (st' & -> & Hstep & Hinv' & Hall).
    { eapply Nat.le_lt_trans; [| exact Hfuel].
      apply universe_left_mono, Hstep1. }
    exists st'. split; [done |]. split; [by eapply dfs_step_trans |].
    split; [done |].
    intros t Ht. apply elem_of_cons in Ht as [-> | Ht]; [| by apply Hall].
    by apply Hstep.
Qed.

(** On a list whose ['dependencies'] entries are lists, the detection
    returns: the fuel of the model is never used up and nothing is raised.
    Every task that heads its own entry of the graph and depends on itself
    has its singleton cycle in the result. *)
Lemma detect_circular_dependencies_spec tasks :
  Forall (λ task, deps_iterable task = true) tasks →
  ∃ found,
    detect_circular_dependencies tasks = Some (Ok found) ∧
    ∀ task, task ∈ tasks →
      task_key task ∈ neighbors_of (build_graph tasks) (task_key task) →
      {[task_key task]} ∈ found.
Proof.
  intros Hiter. unfold detect_circular_dependencies.
  set (universe := list_to_set (mentioned tasks) : gset ident).
  destruct (check_all_nodes_spec (build_graph tasks) universe (dfs_fuel tasks)
              (λ node, build_graph_iterable tasks node Hiter)
              (λ node m, neighbors_mentioned tasks node m)
              tasks {| visited := ∅; rec_stack := ∅; cycles := [] |})
    as (st' & -> & Hstep & Hinv & Hall).
  - repeat split; cbn [visited rec_stack cycles]; set_solver.
  - intros task Hin. apply elem_of_list_to_set. by apply mentioned_key.
  - cbn [visited]. unfold dfs_fuel.
    assert (size (universe ∖ ∅) ≤ size universe)
      by (apply subseteq_size; set_solver).
    pose proof (size_list_to_set_le (mentioned tasks)) as Hsize.
    fold universe in Hsize. lia.
  - exists (cycles st'). split; [done |].
    intros task Hin Hself.
    destruct Hinv as (Hpath & _ & _ & Hloops).
    apply Hloops; [by apply Hall | | done].
    intros Hstack. apply Hpath in Hstack. by apply elem_of_nil in Hstack.
Qed.

(** *** The fuel of the model suffices on every task list *)

Section Fuel.

Context (graph : gmap ident deps_value) (universe : gset ident).

Hypothesis universe_closed :
  ∀ node m, m ∈ neighbors_of graph node → m ∈ universe.

Lemma record_cycle_visited neighbor path st st' :
  record_cycle neighbor path st = Ok st' → visited st' = visited st.
Proof.
  unfold record_cycle. destruct (list_index neighbor path); [| done].
  destruct (bool_decide _); by intros [= <-].
Qed.

Lemma dfs_neighbors_returns fuel call :
  call_returns universe fuel call →
  ∀ neighbors path st,
    visited st ⊆ universe →
    (∀ m, m ∈ neighbors → m ∈ universe) →
    size (universe ∖ visited st) < fuel →
    (∃ e, dfs_neighbors call path neighbors st = Some (Raise e)) ∨
    (∃ st', dfs_neighbors call path neighbors st = Some (Ok st') ∧
            visited st ⊆ visited st' ∧ visited st' ⊆ universe).
Proof.
  intros Hcall neighbors.
  induction neighbors as [| neighbor rest IH]; intros path st Hsub Huni Hfuel.
  { right. by exists st. }
  assert (∀ m, m ∈ rest → m ∈ universe) as Hrest
    by (intros m Hm; apply Huni; by right).
  cbn [dfs_neighbors]. case_bool_decide as Hnew.
  - destruct (Hcall neighbor path st Hsub) as [[e ->] | (st1 & -> & Hv1 & Hu1)];
      [apply Huni; by left | done | done | by left; exists e |].
    destruct (IH path st1 Hu1 Hrest) as [[e ->] | (st' & -> & Hv' & Hu')].
    + eapply Nat.le_lt_trans; [| exact Hfuel].
      apply universe_left_mono. set_solver.
    + left. by exists e.
    + right. exists st'. split; [done |]. split; [set_solver | done].
  - case_bool_decide as Hstack; [| by apply IH].
    destruct (record_cycle neighbor path st) as [st1 | e] eqn:Hrecord;
      [| left; by exists e].
    apply record_cycle_visited in Hrecord.
    destruct (IH path st1) as [[e ->] | (st' & -> & Hv' & Hu')];
      rewrite ?Hrecord; try done.
    + left. by exists e.
    + right. exists st'. split; [done |]. by rewrite <- Hrecord.
Qed.

Lemma dfs_returns fuel : call_returns universe fuel (dfs fuel graph).
Proof.
  induction fuel as [| fuel IH]; intros node path st Hsub Hnode Hnew Hfuel;
    [lia |].
  rewrite dfs_unfold.
  destruct (py_iter (default (DepList []) (graph !! node)))
    as [neighbors | e] eqn:Hiter; [| left; by exists e].
  assert (neighbors = neighbors_of graph node) as ->.
  { unfold neighbors_of, py_iter in *.
    destruct (default (DepList []) (graph !! node)); by inversion Hiter. }
  set (st1 := {| visited := {[node]} ∪ visited st;
                 rec_stack := {[node]} ∪ rec_stack st;
                 cycles := cycles st |}).
  destruct (dfs_neighbors_returns fuel (dfs fuel graph) IH
              (neighbors_of graph node) (path ++ [node]) st1)
    as [[e ->] | (st2 & -> & Hv2 & Hu2)].
  - cbn [visited st1]. set_solver.
  - intros m. apply universe_closed.
  - assert (size (universe ∖ visited st1) < size (universe ∖ visited st))
      by (by apply (universe_left_decreases universe node)).
    lia.
  - left. by exists e.
  - unfold rec_stack_remove. case_bool_decide; [| left; by eexists].
    right. eexists. split; [done |]. cbn [visited st1] in *. done.
Qed.

End Fuel.

Lemma check_all_nodes_returns graph universe fuel :
  (∀ node m, m ∈ neighbors_of graph node → m ∈ universe) →
  ∀ tasks st,
    visited st ⊆ universe →
    (∀ task, task ∈ tasks → task_key task ∈ universe) →
    size (universe ∖ visited st) < fuel →
    ∃ r, check_all_nodes fuel graph tasks st = Some r.
Proof.
  intros Hclosed tasks.
  induction tasks as [| task rest IH]; intros st Hsub Hkeys Hfuel; [by eexists |].
  assert (∀ t, t ∈ rest → task_key t ∈ universe) as Hrest
    by (intros t Ht; apply Hkeys; by right).
  cbn [check_all_nodes]. case_bool_decide as Hnew; [| by apply IH].
  destruct (dfs_returns graph universe Hclosed fuel (task_key task) [] st Hsub)
    as [[e ->] | (st1 & -> & Hv1 & Hu1)];
    [apply Hkeys; by left | done | done | by eexists |].
  apply IH; [done | done |].
  eapply Nat.le_lt_trans; [| exact Hfuel].
  apply universe_left_mono. set_solver.
Qed.

(** Whatever the task list, the detection of the model returns, with the
    cycles found or with an exception: [dfs_fuel] is fuel enough. *)
Lemma detect_circular_dependencies_fuel tasks :
  ∃ r, detect_circular_dependencies tasks = Some r.
Proof.
  unfold detect_circular_dependencies.
  set (universe := list_to_set (mentioned tasks) : gset ident).
  destruct (check_all_nodes_returns (build_graph tasks) universe
              (dfs_fuel tasks) (λ node m, neighbors_mentioned tasks node m)
              tasks {| visited := ∅; rec_stack := ∅; cycles := [] |})
    as [[st | e] ->]; [set_solver | | | by eexists ..].
  - intros task Hin. apply elem_of_list_to_set. by apply mentioned_key.
  - cbn [visited]. unfold dfs_fuel.
    assert (size (universe ∖ ∅) ≤ size universe)
      by (apply subseteq_size; set_solver).
    pose proof (size_list_to_set_le (mentioned tasks)) as Hsize.
    fold universe in Hsize. lia.
Qed.

(** C9, amended. In a list of tasks whose ['dependencies'] entries are
    lists, a task that lists its own identifier, and whose identifier no
    later task of the list carries, has the singleton of that identifier
    among the cycles reported. *)
Theorem self_dependency_is_reported before task after deps :
  Forall (λ task, deps_iterable task = true) (before ++ task :: after) →
  Forall (λ later, task_key later ≠ task_key task) after →
  task_deps task = DepList deps →
  task_key task ∈ deps →
  ∃ found,
    detect_circular_dependencies (before ++ task :: after)
      = Some (Ok found) ∧
    {[task_key task]} ∈ found.
Proof.
  intros Hiter Hlater Hdeps Hself.
  destruct (detect_circular_dependencies_spec _ Hiter) as (found & Hrun & Hloops).
  exists found. split; [done |]. apply Hloops.
  - apply elem_of_app. right. by left.
  - unfold neighbors_of. rewrite build_graph_last by done.
    cbn [default from_option id]. by rewrite Hdeps.
Qed.

Lemma self_dependency_is_reported_witness :
  ∃ found,
    detect_circular_dependencies
      ([dep_task (IInt 1) []] ++ dep_task (IInt 2) [IInt 2; IInt 1] :: [])
      = Some (Ok found) ∧
    {[task_key (dep_task (IInt 2) [IInt 2; IInt 1])]} ∈ found.
Proof.
  apply (self_dependency_is_reported
           [dep_task (IInt 1) []] (dep_task (IInt 2) [IInt 2; IInt 1]) []
           [IInt 2; IInt 1]).
  - repeat constructor.
  - constructor.
  - reflexivity.
  - apply elem_of_cons. by left.
Defined.

(** C9 as stated fails when a later task carries the same identifier: its
    ['dependencies'] replace the entry of the graph, the self-dependency of
    the first task is never seen and no cycle is reported. *)
Lemma self_dependency_lost_to_duplicate :
  task_key (dep_task (IInt 1) [IInt 1]) = IInt 1 ∧
  task_deps (dep_task (IInt 1) [IInt 1]) = DepList [IInt 1] ∧
  detect_circular_dependencies
    [dep_task (IInt 1) [IInt 1]; dep_task (IInt 1) []]
    = Some (Ok []).
Proof. by vm_compute. Qed.

(** ** Further properties of the factor functions *)

Section Factors.

Context (today : Z) (strptime : string → option Z)
        (float_of_str : string → option pyfloat).

(** The urgency score never raises: it is a number in [0, 10], and the
    neutral 5.0 for a value that denotes no date. *)
Theorem urgency_score_total due_date :
  (∃ x, calculate_urgency_score today strptime due_date = Ok x ∧
        in_range 0 10 x) ∧
  (date_of strptime due_date = None →
   calculate_urgency_score today strptime due_date = Ok (FFin 5.0)).
Proof.
  split; [apply urgency_score_range | apply urgency_score_default].
Qed.

End Factors.

(** A task no task depends on has dependency score 0.0. *)
Theorem dependency_score_without_dependents task_id all_tasks :
  forallb (λ task, negb (lists_dependency task_id task)) all_tasks = true →
  calculate_dependency_score task_id all_tasks = Ok (FFin 0.0).
Proof.
  intros Hnone. unfold calculate_dependency_score.
  destruct (forallb deps_iterable all_tasks) eqn:Hiter.
  - rewrite count_dependents_iterable by done.
    replace (List.filter (lists_dependency task_id) all_tasks) with (@nil Task);
      [done |].
    symmetry. clear Hiter. induction all_tasks as [| task rest IH]; [done |].
    cbn [forallb] in Hnone. apply andb_true_iff in Hnone as [Htask Hrest].
    cbn [List.filter]. apply negb_true_iff in Htask. rewrite Htask.
    by apply IH.
  - by rewrite count_dependents_not_iterable.
Qed.

Lemma dependency_score_without_dependents_witness :
  calculate_dependency_score (IInt 1)
    [dep_task (IInt 1) []; dep_task (IInt 2) []] = Ok (FFin 0.0).
Proof.
  apply (dependency_score_without_dependents (IInt 1)
           [dep_task (IInt 1) []; dep_task (IInt 2) []]).
  reflexivity.
Defined.

(** The detection terminates on every task list, and on a list whose
    ['dependencies'] entries are lists it returns a list of cycles without
    raising. *)
Theorem detection_returns tasks :
  (∃ r, detect_circular_dependencies tasks = Some r) ∧
  (Forall (λ task, deps_iterable task = true) tasks →
   ∃ found, detect_circular_dependencies tasks = Some (Ok found)).
Proof.
  split; [apply detect_circular_dependencies_fuel |].
  intros Hiter.
  destruct (detect_circular_dependencies_spec tasks Hiter) as (found & Hrun & _).
  by exists found.
Qed.

Lemma detection_returns_witness :
  ∃ found,
    detect_circular_dependencies
      [dep_task (IInt 1) [IInt 2]; dep_task (IInt 2) [IInt 1]]
      = Some (Ok found).
Proof.
  apply (proj2 (detection_returns
           [dep_task (IInt 1) [IInt 2]; dep_task (IInt 2) [IInt 1]])).
  repeat constructor.
Defined.

(** ** Monotonicity of the factor scores *)

(** The value of the urgency ladder, rung by rung. *)
Lemma urgency_of_days_cases days_until :
  ∃ q, urgency_of_days days_until = FFin q ∧
    (((days_until < 0)%Z ∧ q == 10) ∨
     (days_until = 0%Z ∧ q == 9.5) ∨
     (days_until = 1%Z ∧ q == 9) ∨
     ((2 <= days_until <= 3)%Z ∧ q == 8) ∨
     ((4 <= days_until <= 7)%Z ∧ q == 6) ∨
     ((8 <= days_until <= 14)%Z ∧ q == 4) ∨
     ((15 <= days_until <= 30)%Z ∧ q == 2) ∨
     ((30 < days_until)%Z ∧
      ((0 < 2 - (inject_Z days_until - 30) * (1 # 30) ∧
        q == 2 - (inject_Z days_until - 30) * (1 # 30)) ∨
       (2 - (inject_Z days_until - 30) * (1 # 30) <= 0 ∧ q == 0))))%Q.
Proof.
  destruct (decide (days_until < 0)%Z) as [Hneg | Hpos].
  { rewrite urgency_of_days_overdue by done. eexists. split; [done |].
    left. split; [done | reflexivity]. }
  unfold urgency_of_days.
  destruct (days_until <? 0)%Z eqn:H0; [apply Z.ltb_lt in H0; lia |].
  destruct (days_until =? 0)%Z eqn:H1.
  { apply Z.eqb_eq in H1. eexists. split; [done |].
    right; left. split; [done | reflexivity]. }
  destruct (days_until =? 1)%Z eqn:H2.
  { apply Z.eqb_eq in H2. eexists. split; [done |].
    do 2 right; left. split; [done | reflexivity]. }
  apply Z.eqb_neq in H1, H2.
  destruct (days_until <=? 3)%Z eqn:H3.
  { apply Z.leb_le in H3. eexists. split; [done |].
    do 3 right; left. split; [lia | reflexivity]. }
  apply Z.leb_gt in H3.
  destruct (days_until <=? 7)%Z eqn:H4.
  { apply Z.leb_le in H4. eexists. split; [done |].
    do 4 right; left. split; [lia | reflexivity]. }
  apply Z.leb_gt in H4.
  destruct (days_until <=? 14)%Z eqn:H5.
  { apply Z.leb_le in H5. eexists. split; [done |].
    do 5 right; left. split; [lia | reflexivity]. }
  apply Z.leb_gt in H5.
  destruct (days_until <=? 30)%Z eqn:H6.
  { apply Z.leb_le in H6. eexists. split; [done |].
    do 6 right; left. split; [lia | reflexivity]. }
  apply Z.leb_gt in H6.
  unfold pymax, of_int, fdiv_lit, fsub, fneg, fadd.
  assert (inject_Z (days_until - 30) == inject_Z days_until - 30)%Q as Hsub.
  { unfold Z.sub. rewrite inject_Z_plus, inject_Z_opp. reflexivity. }
  assert (inject_Z 2 + - (inject_Z (days_until - 30) / 30)
            == 2 - (inject_Z days_until - 30) * (1 # 30))%Q as Hval.
  { rewrite Hsub. change (inject_Z 2) with 2%Q. unfold Qdiv.
    change (/ 30)%Q with (1 # 30)%Q. ring. }
  destruct (flt _ _) eqn:Hcmp.
  - apply flt_fin in Hcmp. change (inject_Z 0) with 0%Q in Hcmp.
    eexists. split; [done |]. do 7 right. split; [done |]. left.
    split; [by rewrite <- Hval | exact Hval].
  - apply flt_fin_false in Hcmp. change (inject_Z 0) with 0%Q in Hcmp.
    eexists. split; [done |]. do 7 right. split; [done |]. right.
    split; [by rewrite <- Hval | reflexivity].
Qed.

(** The ladder never rises with the days left. *)
Lemma urgency_of_days_antitone d1 d2 :
  (d1 <= d2)%Z →
  ∃ q1 q2, urgency_of_days d1 = FFin q1 ∧ urgency_of_days d2 = FFin q2 ∧
           (q2 <= q1)%Q.
Proof.
  intros Hle.
  destruct (urgency_of_days_cases d1) as (q1 & -> & H1).
  destruct (urgency_of_days_cases d2) as (q2 & -> & H2).
  exists q1, q2. split; [done |]. split; [done |].
  assert (inject_Z d1 <= inject_Z d2)%Q as Hq by by rewrite <- Zle_Qle.
  assert (∀ d, (30 < d)%Z → (30 < inject_Z d)%Q) as Hbig.
  { intros d Hd. change 30%Q with (inject_Z 30). by rewrite <- Zlt_Qlt. }
  destruct H1 as [[? E1] | [[? E1] | [[? E1] | [[? E1] | [[? E1] | [[? E1] |
                 [[? E1] | [? [[? E1] | [? E1]]]]]]]]]];
  destruct H2 as [[? E2] | [[? E2] | [[? E2] | [[? E2] | [[? E2] | [[? E2] |
                 [[? E2] | [? [[? E2] | [? E2]]]]]]]]]];
  try lia; rewrite E1, E2; try lra;
  try (pose proof (Hbig d1 ltac:(lia)));
  try (pose proof (Hbig d2 ltac:(lia))); lra.
Qed.


Lemma fle_fin p q : fle (FFin p) (FFin q) = true ↔ (p <= q)%Q.
Proof. apply Qle_bool_iff. Qed.

Lemma fle_fin_false p q : fle (FFin p) (FFin q) = false ↔ (q < p)%Q.
Proof.
  cbn [fle]. rewrite <- not_true_iff_false, Qle_bool_iff.
  split; [apply Qnot_le_lt | apply Qlt_not_le].
Qed.

(** The value of the effort brackets on a finite number of hours. *)
Lemma effort_of_hours_cases (h : Q) :
  ∃ e, effort_of_hours (FFin h) = FFin e ∧
    ((h <= 0.5 ∧ e == 10) ∨
     (0.5 < h ∧ h <= 1 ∧ e == 9) ∨
     (1 < h ∧ h <= 2 ∧ e == 8) ∨
     (2 < h ∧ h <= 4 ∧ e == 6) ∨
     (4 < h ∧ h <= 8 ∧ e == 4) ∨
     (8 < h ∧ h <= 16 ∧ e == 2) ∨
     (16 < h ∧
      ((0 < 2 - (h - 16) * (1 # 8) ∧ e == 2 - (h - 16) * (1 # 8)) ∨
       (2 - (h - 16) * (1 # 8) <= 0 ∧ e == 0))))%Q.
Proof.
  unfold effort_of_hours.
  destruct (flt (FFin h) (of_int 0)) eqn:Hneg.
  { apply flt_fin in Hneg. change (inject_Z 0) with 0%Q in Hneg.
    eexists. split; [by vm_compute |]. left. split; [lra | reflexivity]. }
  apply flt_fin_false in Hneg. change (inject_Z 0) with 0%Q in Hneg.
  unfold of_int.
  change (inject_Z 1) with 1%Q. change (inject_Z 2) with 2%Q.
  change (inject_Z 4) with 4%Q. change (inject_Z 8) with 8%Q.
  change (inject_Z 16) with 16%Q. change (inject_Z 0) with 0%Q.
  destruct (fle (FFin h) (FFin 0.5)) eqn:H1.
  { apply fle_fin in H1. eexists. split; [done |].
    left. split; [done | reflexivity]. }
  apply fle_fin_false in H1.
  destruct (fle (FFin h) (FFin 1)) eqn:H2.
  { apply fle_fin in H2. eexists. split; [done |].
    right; left. split; [done | split; [done | reflexivity]]. }
  apply fle_fin_false in H2.
  destruct (fle (FFin h) (FFin 2)) eqn:H3.
  { apply fle_fin in H3. eexists. split; [done |].
    do 2 right; left. split; [done | split; [done | reflexivity]]. }
  apply fle_fin_false in H3.
  destruct (fle (FFin h) (FFin 4)) eqn:H4.
  { apply fle_fin in H4. eexists. split; [done |].
    do 3 right; left. split; [done | split; [done | reflexivity]]. }
  apply fle_fin_false in H4.
  destruct (fle (FFin h) (FFin 8)) eqn:H5.
  { apply fle_fin in H5. eexists. split; [done |].
    do 4 right; left. split; [done | split; [done | reflexivity]]. }
  apply fle_fin_false in H5.
  destruct (fle (FFin h) (FFin 16)) eqn:H6.
  { apply fle_fin in H6. eexists. split; [done |].
    do 5 right; left. split; [done | split; [done | reflexivity]]. }
  apply fle_fin_false in H6.
  unfold pymax, fdiv_lit, fsub, fneg, fadd.
  assert (2 + - ((h + - (16)) / 8) == 2 - (h - 16) * (1 # 8))%Q as Hval.
  { unfold Qdiv. change (/ 8)%Q with (1 # 8)%Q. ring. }
  destruct (flt _ _) eqn:Hcmp.
  - apply flt_fin in Hcmp.
    eexists. split; [done |]. do 6 right. split; [done |]. left.
    split; [by rewrite <- Hval | exact Hval].
  - apply flt_fin_false in Hcmp.
    eexists. split; [done |]. do 6 right. split; [done |]. right.
    split; [by rewrite <- Hval | reflexivity].
Qed.

Lemma effort_of_hours_antitone (h1 h2 : Q) :
  (h1 <= h2)%Q →
  ∃ e1 e2, effort_of_hours (FFin h1) = FFin e1 ∧
           effort_of_hours (FFin h2) = FFin e2 ∧ (e2 <= e1)%Q.
Proof.
  intros Hle.
  destruct (effort_of_hours_cases h1) as (e1 & -> & H1).
  destruct (effort_of_hours_cases h2) as (e2 & -> & H2).
  exists e1, e2. split; [done |]. split; [done |].
  destruct H1 as [[? E1] | [(? & ? & E1) | [(? & ? & E1) | [(? & ? & E1) |
                 [(? & ? & E1) | [(? & ? & E1) | [? [[? E1] | [? E1]]]]]]]]];
  destruct H2 as [[? E2] | [(? & ? & E2) | [(? & ? & E2) | [(? & ? & E2) |
                 [(? & ? & E2) | [(? & ? & E2) | [? [[? E2] | [? E2]]]]]]]]];
  rewrite E1, E2; lra.
Qed.

Section Monotone.

Context (today : Z) (strptime : string → option Z)
        (float_of_str : string → option pyfloat).

(** Of two due dates, the later one is never the more urgent. *)
Theorem urgency_later_is_not_higher due1 due2 d1 d2 :
  date_of strptime due1 = Some d1 →
  date_of strptime due2 = Some d2 →
  (d1 <= d2)%Z →
  ∃ u1 u2,
    calculate_urgency_score today strptime due1 = Ok (FFin u1) ∧
    calculate_urgency_score today strptime due2 = Ok (FFin u2) ∧
    (u2 <= u1)%Q.
Proof.
  intros H1 H2 Hle.
  rewrite (urgency_score_of_date _ _ _ _ H1), (urgency_score_of_date _ _ _ _ H2).
  destruct (urgency_of_days_antitone (d1 - today) (d2 - today))
    as (q1 & q2 & -> & -> & Hq); [lia |].
  by exists q1, q2.
Qed.

(** Of two finite numbers of hours, the larger never has the higher effort
    score; a negative number of hours scores like none, 10. *)
Theorem effort_more_hours_is_not_higher hours1 hours2 (h1 h2 : Q) :
  py_float float_of_str hours1 = Ok (FFin h1) →
  py_float float_of_str hours2 = Ok (FFin h2) →
  (h1 <= h2)%Q →
  ∃ e1 e2,
    calculate_effort_score float_of_str hours1 = Ok (FFin e1) ∧
    calculate_effort_score float_of_str hours2 = Ok (FFin e2) ∧
    (e2 <= e1)%Q ∧
    (h1 < 0 → e1 == 10)%Q.
Proof.
  intros H1 H2 Hle. unfold calculate_effort_score. rewrite H1, H2.
  cbn [bind try_except].
  destruct (effort_of_hours_antitone h1 h2 Hle) as (e1 & e2 & He1 & He2 & He).
  exists e1, e2. rewrite He1, He2.
  split; [done |]. split; [done |]. split; [done |].
  intros Hneg. destruct (effort_of_hours_cases h1) as (e & He' & Hcases).
  rewrite He1 in He'. injection He' as <-.
  destruct Hcases as [[? E] | [(? & ? & E) | [(? & ? & E) | [(? & ? & E) |
                     [(? & ? & E) | [(? & ? & E) | [? [[? E] | [? E]]]]]]]]];
    first [exact E | lra].
Qed.

End Monotone.

Lemma urgency_later_is_not_higher_witness :
  ∃ u1 u2,
    calculate_urgency_score 739000 (λ _, None) (VDate 739002) = Ok (FFin u1) ∧
    calculate_urgency_score 739000 (λ _, None) (VDate 739045) = Ok (FFin u2) ∧
    (u2 <= u1)%Q.
Proof.
  apply (urgency_later_is_not_higher 739000 (λ _, None)
           (VDate 739002) (VDate 739045) 739002 739045);
    [reflexivity | reflexivity | lia].
Defined.

Lemma effort_more_hours_is_not_higher_witness :
  ∃ e1 e2,
    calculate_effort_score (λ _, None) (VInt (-5)) = Ok (FFin e1) ∧
    calculate_effort_score (λ _, None) (VFloat (FFin 20)) = Ok (FFin e2) ∧
    (e2 <= e1)%Q ∧
    (inject_Z (-5) < 0 → e1 == 10)%Q.
Proof.
  apply (effort_more_hours_is_not_higher (λ _, None)
           (VInt (-5)) (VFloat (FFin 20)) (inject_Z (-5)) 20);
    [reflexivity | reflexivity | by vm_compute].
Defined.

(** The value of the fan-in policy. *)
Lemma dependency_of_count_cases (n : nat) :
  ∃ q, dependency_of_count n = FFin q ∧
    ((n = 0%nat ∧ q == 0) ∨ (n = 1%nat ∧ q == 4) ∨ (n = 2%nat ∧ q == 7) ∨
     (n = 3%nat ∧ q == 8.5) ∨ ((4 <= n)%nat ∧ q == 10))%Q.
Proof.
  destruct n as [| [| [| [| n]]]]; try (eexists; split; [by vm_compute |]).
  - left. split; [done | reflexivity].
  - right; left. split; [done | reflexivity].
  - do 2 right; left. split; [done | reflexivity].
  - do 3 right; left. split; [done | reflexivity].
  - unfold dependency_of_count. cbn [Nat.eqb]. unfold pymin, of_int, fmul, fadd.
    assert (flt (FFin (7.0 + inject_Z (Z.of_nat (S (S (S (S n)))) - 2) * 1.5))
                (FFin 10.0) = false) as ->.
    { apply flt_fin_false.
      assert (inject_Z 2 <= inject_Z (Z.of_nat (S (S (S (S n)))) - 2))%Q as H
        by (rewrite <- Zle_Qle; lia).
      change (inject_Z 2) with 2%Q in H. lra. }
    eexists. split; [done |]. do 4 right. split; [lia | reflexivity].
Qed.

Lemma dependency_of_count_mono (n m : nat) :
  (n <= m)%nat →
  ∃ q1 q2, dependency_of_count n = FFin q1 ∧ dependency_of_count m = FFin q2 ∧
           (q1 <= q2)%Q.
Proof.
  intros Hle.
  destruct (dependency_of_count_cases n) as (q1 & -> & H1).
  destruct (dependency_of_count_cases m) as (q2 & -> & H2).
  exists q1, q2. split; [done |]. split; [done |].
  destruct H1 as [[? E1] | [[? E1] | [[? E1] | [[? E1] | [? E1]]]]];
  destruct H2 as [[? E2] | [[? E2] | [[? E2] | [[? E2] | [? E2]]]]];
  try lia; rewrite E1, E2; lra.
Qed.

(** Further tasks in the list never lower the dependency score of an
    identifier, and four dependents or more give the full 10. *)
Theorem dependency_score_grows_with_dependents task_id all_tasks more :
  forallb deps_iterable (all_tasks ++ more) = true →
  ∃ s1 s2,
    calculate_dependency_score task_id all_tasks = Ok (FFin s1) ∧
    calculate_dependency_score task_id (all_tasks ++ more) = Ok (FFin s2) ∧
    (s1 <= s2)%Q ∧
    ((4 <= length (List.filter (lists_dependency task_id) all_tasks))%nat →
     (s1 == 10)%Q).
Proof.
  intros Hiter. pose proof Hiter as Hboth.
  rewrite forallb_app in Hboth. apply andb_true_iff in Hboth as [Hiter1 _].
  unfold calculate_dependency_score.
  rewrite !count_dependents_iterable by done.
  cbn [bind try_except_Exception]. rewrite !Nat.add_0_l.
  rewrite List.filter_app, length_app.
  set (n := length (List.filter (lists_dependency task_id) all_tasks)).
  set (k := length (List.filter (lists_dependency task_id) more)).
  destruct (dependency_of_count_mono n (n + k)) as (q1 & q2 & H1 & H2 & Hq);
    [lia |].
  exists q1, q2. rewrite H1, H2.
  split; [done |]. split; [done |]. split; [done |].
  intros Hfour. destruct (dependency_of_count_cases n) as (q & Hq' & Hcases).
  rewrite H1 in Hq'. injection Hq' as <-.
  destruct Hcases as [[? E] | [[? E] | [[? E] | [[? E] | [? E]]]]];
    first [exact E | lia].
Qed.

Lemma dependency_score_grows_with_dependents_witness :
  ∃ s1 s2,
    calculate_dependency_score (IInt 1) [dep_task (IInt 2) [IInt 1]]
      = Ok (FFin s1) ∧
    calculate_dependency_score (IInt 1)
      ([dep_task (IInt 2) [IInt 1]] ++ [dep_task (IInt 3) [IInt 1]])
      = Ok (FFin s2) ∧
    (s1 <= s2)%Q ∧
    ((4 <= length (List.filter (lists_dependency (IInt 1))
                     [dep_task (IInt 2) [IInt 1]]))%nat →
     (s1 == 10)%Q).
Proof.
  apply (dependency_score_grows_with_dependents (IInt 1)
           [dep_task (IInt 2) [IInt 1]] [dep_task (IInt 3) [IInt 1]]).
  reflexivity.
Defined.

(** ** Monotonicity of the final score *)

Lemma round_half_even_mono x y :
  (x <= y)%Q → (round_half_even x <= round_half_even y)%Z.
Proof.
  intros Hle.
  pose proof (Qfloor_resp_le x y Hle) as Hfloor.
  destruct (decide (Qfloor x = Qfloor y)) as [Heq | Hne].
  - unfold round_half_even. rewrite <- Heq.
    destruct (Qltb (x - inject_Z (Qfloor x)) (1 # 2)) eqn:Hx1;
    destruct (Qltb (y - inject_Z (Qfloor x)) (1 # 2)) eqn:Hy1;
    rewrite ?Qltb_lt, ?Qltb_ge in *; try lia; try lra;
    destruct (Qltb (1 # 2) (x - inject_Z (Qfloor x))) eqn:Hx2;
    destruct (Qltb (1 # 2) (y - inject_Z (Qfloor x))) eqn:Hy2;
    rewrite ?Qltb_lt, ?Qltb_ge in *; try lia; try lra;
    destruct (Z.even (Qfloor x)); lia.
  - destruct (round_half_even_floor x) as [-> | [-> _]];
    destruct (round_half_even_floor y) as [-> | [-> _]]; lia.
Qed.

Lemma hundredths_mono (n m : Z) : (n <= m)%Z → (n # 100 <= m # 100)%Q.
Proof. intros H. unfold Qle. simpl. lia. Qed.

Section Postpone.

Context (today : Z) (strptime : string → option Z)
        (float_of_str : string → option pyfloat).

(** Postponing a task never raises its priority: of two tasks that differ
    in the due date only, the one due later never has the higher score,
    whatever the strategy. *)
Theorem postponing_does_not_raise_score strategy task all_tasks
    due1 due2 d1 d2 :
  date_of strptime due1 = Some d1 →
  date_of strptime due2 = Some d2 →
  (d1 <= d2)%Z →
  ∃ r1 r2 s1 s2,
    score_task today strptime float_of_str (TaskScorer_init strategy)
      (with_due_date task due1) all_tasks = Ok r1 ∧
    score_task today strptime float_of_str (TaskScorer_init strategy)
      (with_due_date task due2) all_tasks = Ok r2 ∧
    score r1 = FFin s1 ∧ score r2 = FFin s2 ∧ (s2 <= s1)%Q.
Proof.
  intros H1 H2 Hle. unfold score_task.
  cbn [with_due_date due_date importance estimated_hours default
       from_option id].
  change (task_key (with_due_date task due1)) with (task_key task).
  change (task_key (with_due_date task due2)) with (task_key task).
  rewrite (urgency_score_of_date _ _ _ _ H1),
    (urgency_score_of_date _ _ _ _ H2).
  destruct (urgency_of_days_antitone (d1 - today) (d2 - today))
    as (u1 & u2 & -> & -> & Hu); [lia |].
  destruct (importance_score_cases float_of_str
              (from_option id VNone (importance task)))
    as [(i' & -> & (i & -> & Hi)) | ->];
    [| cbn; eexists _, _, _, _; repeat split; lra].
  destruct (effort_score_cases float_of_str
              (from_option id VNone (estimated_hours task)))
    as [(e' & -> & (e & -> & He)) | ->];
    [| cbn; eexists _, _, _, _; repeat split; lra].
  destruct (dependency_score_range (task_key task) all_tasks)
    as (d' & -> & (d & -> & Hd)).
  cbn [bind try_except_Exception fmul fadd round2 TaskScorer_init weights].
  eexists _, _, _, _. cbn [score].
  split; [done |]. split; [done |]. split; [done |]. split; [done |].
  apply hundredths_mono, round_half_even_mono.
  destruct (init_weights_sum strategy) as (Hw & _).
  cbn [TaskScorer_init weights] in Hw. nra.
Qed.

End Postpone.

Lemma postponing_does_not_raise_score_witness :
  ∃ r1 r2 s1 s2,
    score_task 739000 (λ _, None) (λ _, None)
      (TaskScorer_init "deadline_driven")
      (with_due_date (full_task 1 "Report" VNone 3 7) (VDate 739001)) []
      = Ok r1 ∧
    score_task 739000 (λ _, None) (λ _, None)
      (TaskScorer_init "deadline_driven")
      (with_due_date (full_task 1 "Report" VNone 3 7) (VDate 739010)) []
      = Ok r2 ∧
    score r1 = FFin s1 ∧ score r2 = FFin s2 ∧ (s2 <= s1)%Q.
Proof.
  apply (postponing_does_not_raise_score 739000 (λ _, None) (λ _, None)
           "deadline_driven" (full_task 1 "Report" VNone 3 7) []
           (VDate 739001) (VDate 739010) 739001 739010);
    [reflexivity | reflexivity | lia].
Defined.

(** ** What the detection reports *)

Section Chains.

Context (graph : gmap ident deps_value).

Lemma is_chain_snoc path u v :
  is_chain graph path → last path = Some u → depends_on graph u v →
  is_chain graph (path ++ [v]).
Proof.
  induction path as [| a [| b rest] IH]; intros Hchain Hlast Hdep.
  - done.
  - injection Hlast as ->. by split.
  - destruct Hchain as [Hab Hrest]. split; [done |]. by apply IH.
Qed.

Lemma is_chain_drop path i :
  is_chain graph path → is_chain graph (drop i path).
Proof.
  revert path. induction i as [| i IH]; intros path Hchain; [by rewrite drop_0 |].
  destruct path as [| a [| b rest]]; [done | by destruct i |].
  apply (IH (b :: rest)). by destruct Hchain.
Qed.

Lemma is_chain_from_head path h x :
  is_chain graph (h :: path) → x ∈ h :: path → rtc (depends_on graph) h x.
Proof.
  revert h. induction path as [| b rest IH]; intros h Hchain Hin.
  - apply list_elem_of_singleton in Hin as ->. done.
  - apply elem_of_cons in Hin as [-> | Hin]; [done |].
    destruct Hchain as [Hdep Hrest].
    eapply rtc_l; [exact Hdep | by apply IH].
Qed.

Lemma is_chain_to_last path u x :
  is_chain graph path → last path = Some u → x ∈ path →
  rtc (depends_on graph) x u.
Proof.
  revert x. induction path as [| a [| b rest] IH]; intros x Hchain Hlast Hin.
  - by apply elem_of_nil in Hin.
  - injection Hlast as ->. by apply list_elem_of_singleton in Hin as ->.
  - destruct Hchain as [Hdep Hrest].
    apply elem_of_cons in Hin as [-> | Hin]; [| by apply IH].
    eapply rtc_l; [exact Hdep |]. apply IH; [done | done | by left].
Qed.

Lemma list_index_drop x path i :
  list_index x path = Some i → ∃ rest, drop i path = x :: rest.
Proof.
  revert i. induction path as [| y rest IH]; intros i; [done |].
  cbn [list_index]. destruct (decide (y = x)) as [-> | Hne].
  - intros [= <-]. by eexists.
  - destruct (list_index x rest) as [j |]; [| done].
    intros [= <-]. by apply IH.
Qed.

Lemma last_drop_cons (path : list ident) i x rest :
  drop i path = x :: rest → last (x :: rest) = last path.
Proof.
  revert path. induction i as [| i IH]; intros path Hdrop.
  - by rewrite drop_0 in Hdrop; subst.
  - destruct path as [| a path]; [done |]. cbn [drop] in Hdrop.
    rewrite (IH path Hdrop). destruct path; [by destruct i | done].
Qed.

(** The set recorded at a back edge is a cycle. *)
Lemma back_edge_cycle path u neighbor i :
  is_chain graph path → last path = Some u → depends_on graph u neighbor →
  list_index neighbor path = Some i →
  on_a_cycle graph (list_to_set (drop i path ++ [neighbor])).
Proof.
  intros Hchain Hlast Hdep Hindex.
  destruct (list_index_drop _ _ _ Hindex) as [rest Hdrop].
  pose proof (is_chain_drop path i Hchain) as Hsub. rewrite Hdrop in *.
  pose proof (last_drop_cons _ _ _ _ Hdrop) as Hlast'. rewrite Hlast in Hlast'.
  assert (∀ x, x ∈ (list_to_set ((neighbor :: rest) ++ [neighbor]) : gset ident)
               → x ∈ neighbor :: rest) as Hmem.
  { intros x Hx. apply elem_of_list_to_set, elem_of_app in Hx as [Hx | Hx];
      [done |]. apply list_elem_of_singleton in Hx as ->. by left. }
  split; [set_solver |].
  intros x y Hx%Hmem Hy%Hmem.
  eapply tc_rtc_l;
    [exact (is_chain_to_last (neighbor :: rest) u x Hsub Hlast' Hx) |].
  eapply tc_rtc_r; [apply tc_once, Hdep |].
  exact (is_chain_from_head rest neighbor y Hsub Hy).
Qed.

(** A property of [cycles] that every recorded back edge keeps is kept by
    the whole of [dfs]. *)
Section Invariant.

Context (P : list (gset ident) → Prop).

Hypothesis record_keeps :
  ∀ path u neighbor st st',
    is_chain graph path → last path = Some u → depends_on graph u neighbor →
    record_cycle neighbor path st = Ok st' →
    P (cycles st) → P (cycles st').

Lemma dfs_neighbors_keeps call :
  (∀ node path st st',
     call node path st = Some (Ok st') → is_chain graph (path ++ [node]) →
     P (cycles st) → P (cycles st')) →
  ∀ neighbors path u st st',
    dfs_neighbors call path neighbors st = Some (Ok st') →
    is_chain graph path → last path = Some u →
    (∀ m, m ∈ neighbors → depends_on graph u m) →
    P (cycles st) → P (cycles st').
Proof.
  intros Hcall neighbors.
  induction neighbors as [| neighbor rest IH];
    intros path u st st' Hrun Hchain Hlast Hdeps HP.
  { cbn in Hrun. by injection Hrun as <-. }
  assert (depends_on graph u neighbor) as Hdep by (apply Hdeps; by left).
  assert (∀ m, m ∈ rest → depends_on graph u m) as Hrest
    by (intros m Hm; apply Hdeps; by right).
  cbn [dfs_neighbors] in Hrun. case_bool_decide.
  - destruct (call neighbor path st) as [[st1 | e] |] eqn:Hcalled; try done.
    eapply IH; [exact Hrun | done | done | done |].
    eapply Hcall; [exact Hcalled | by eapply is_chain_snoc | done].
  - case_bool_decide; [| by eapply IH].
    destruct (record_cycle neighbor path st) as [st1 | e] eqn:Hrecord;
      [| done].
    eapply IH; [exact Hrun | done | done | done |].
    by eapply record_keeps.
Qed.

Lemma dfs_keeps fuel node path st st' :
  dfs fuel graph node path st = Some (Ok st') →
  is_chain graph (path ++ [node]) →
  P (cycles st) → P (cycles st').
Proof.
  revert node path st st'.
  induction fuel as [| fuel IH]; intros node path st st' Hrun Hchain HP;
    [done |].
  rewrite dfs_unfold in Hrun.
  destruct (py_iter (default (DepList []) (graph !! node)))
    as [neighbors | e] eqn:Hiter; [| done].
  assert (neighbors = neighbors_of graph node) as ->.
  { unfold neighbors_of, py_iter in *.
    destruct (default (DepList []) (graph !! node)); by inversion Hiter. }
  destruct (dfs_neighbors _ _ _ _) as [[st2 | e] |] eqn:Hloop; try done.
  unfold rec_stack_remove in Hrun. case_bool_decide; [| done].
  injection Hrun as <-. cbn [cycles].
  eapply (dfs_neighbors_keeps (dfs fuel graph) IH);
    [exact Hloop | done | apply last_snoc | done | done].
Qed.

Lemma check_all_nodes_keeps fuel tasks st st' :
  check_all_nodes fuel graph tasks st = Some (Ok st') →
  P (cycles st) → P (cycles st').
Proof.
  revert st. induction tasks as [| task rest IH]; intros st Hrun HP.
  { cbn in Hrun. by injection Hrun as <-. }
  cbn [check_all_nodes] in Hrun. case_bool_decide; [| by eapply IH].
  destruct (dfs fuel graph (task_key task) [] st) as [[st1 | e] |] eqn:Hdfs;
    try done.
  eapply IH; [exact Hrun |]. by eapply dfs_keeps.
Qed.

End Invariant.

End Chains.

Lemma detect_keeps (P : list (gset ident) → Prop) tasks found :
  (∀ path u neighbor st st',
     is_chain (build_graph tasks) path → last path = Some u →
     depends_on (build_graph tasks) u neighbor →
     record_cycle neighbor path st = Ok st' →
     P (cycles st) → P (cycles st')) →
  P [] →
  detect_circular_dependencies tasks = Some (Ok found) → P found.
Proof.
  intros Hrecord Hnil. unfold detect_circular_dependencies.
  destruct (check_all_nodes _ _ _ _) as [[st | e] |] eqn:Hrun; try done.
  intros [= <-].
  by eapply (check_all_nodes_keeps (build_graph tasks) P Hrecord) in Hrun.
Qed.

Lemma detect_sound tasks found :
  detect_circular_dependencies tasks = Some (Ok found) →
  Forall (on_a_cycle (build_graph tasks)) found.
Proof.
  apply (detect_keeps (Forall (on_a_cycle (build_graph tasks)))); [| done].
  intros path u neighbor st st' Hchain Hlast Hdep Hrecord Hall.
  unfold record_cycle in Hrecord.
  destruct (list_index neighbor path) as [i |] eqn:Hindex; [| done].
  injection Hrecord as <-. case_bool_decide; [done |]. cbn [cycles].
  apply Forall_app. split; [done |]. apply Forall_singleton.
  by eapply back_edge_cycle.
Qed.

(** Every set the detection reports is a dependency cycle of the graph it
    built: the set is not empty and each member depends, through one step
    or more, on every member, itself included. *)
Theorem reported_cycles_are_cycles tasks found :
  detect_circular_dependencies tasks = Some (Ok found) →
  Forall (on_a_cycle (build_graph tasks)) found.
Proof. apply detect_sound. Qed.

Lemma reported_cycles_are_cycles_witness :
  Forall (on_a_cycle
            (build_graph
               [dep_task (IInt 1) [IInt 2]; dep_task (IInt 2) [IInt 1]]))
    [{[IInt 1; IInt 2]}].
Proof.
  apply (reported_cycles_are_cycles
           [dep_task (IInt 1) [IInt 2]; dep_task (IInt 2) [IInt 1]]).
  by vm_compute.
Defined.

(** No set is reported twice. *)
Theorem reported_cycles_are_distinct tasks found :
  detect_circular_dependencies tasks = Some (Ok found) → NoDup found.
Proof.
  apply (detect_keeps NoDup); [| constructor].
  intros path u neighbor st st' _ _ _ Hrecord Hnodup.
  unfold record_cycle in Hrecord.
  destruct (list_index neighbor path) as [i |]; [| done].
  injection Hrecord as <-. case_bool_decide as Hseen; [done |]. cbn [cycles].
  apply NoDup_app. split; [done |]. split; [| apply NoDup_singleton].
  intros c Hc Hc'. apply list_elem_of_singleton in Hc' as ->. done.
Qed.

Lemma reported_cycles_are_distinct_witness :
  NoDup [({[IInt 1; IInt 2]} : gset ident)].
Proof.
  apply (reported_cycles_are_distinct
           [dep_task (IInt 1) [IInt 2]; dep_task (IInt 2) [IInt 1]]).
  by vm_compute.
Defined.

(** *** A graph with a cycle has one reported *)

Lemma finished_step st st' x :
  dfs_step st st' → x ∈ finished st → x ∈ finished st'.
Proof.
  intros (Hr & Hv & _). unfold finished. rewrite Hr. set_solver.
Qed.

Lemma cycles_step_nil st st' :
  dfs_step st st' → cycles st' = [] → cycles st = [].
Proof.
  intros (_ & _ & Hc) Hnil. destruct (cycles st) as [| c l]; [done |].
  specialize (Hc c ltac:(by left)). rewrite Hnil in Hc.
  by apply elem_of_nil in Hc.
Qed.

Lemma tc_first_step {A} (R : relation A) x y :
  tc R x y → ∃ z, R x z ∧ rtc R z y.
Proof.
  intros H. destruct H as [x y Hxy | x z y Hxz Hzy].
  - exists y. by split.
  - exists z. split; [done | by apply tc_rtc].
Qed.

Section Completeness.

Context (graph : gmap ident deps_value) (universe : gset ident).

Hypothesis graph_iterable : ∀ node, graph !! node ≠ Some DepNotIterable.
Hypothesis universe_closed :
  ∀ node m, m ∈ neighbors_of graph node → m ∈ universe.

Lemma finished_closed_rtc st x y :
  (∀ u v, u ∈ finished st → depends_on graph u v → v ∈ finished st) →
  x ∈ finished st → rtc (depends_on graph) x y → y ∈ finished st.
Proof.
  intros Hclosed Hx Hreach. induction Hreach as [| x z y Hxz _ IH]; [done |].
  apply IH. by eapply Hclosed.
Qed.

Lemma dfs_neighbors_acyclic fuel call :
  call_spec_acyclic graph universe fuel call →
  ∀ neighbors path st,
    stack_inv universe path st → no_cycle_so_far graph st →
    (∀ m, m ∈ neighbors → m ∈ universe) →
    size (universe ∖ visited st) < fuel →
    ∃ st', dfs_neighbors call path neighbors st = Some (Ok st') ∧
           dfs_step st st' ∧ stack_inv universe path st' ∧
           no_cycle_so_far graph st' ∧
           (cycles st' = [] → ∀ m, m ∈ neighbors → m ∈ finished st').
Proof.
  intros Hcall neighbors.
  induction neighbors as [| neighbor rest IH];
    intros path st Hinv Hno Huni Hfuel.
  { exists st. split; [done |]. split; [apply dfs_step_refl |].
    split; [done |]. split; [done |].
    intros _ m Hm. by apply elem_of_nil in Hm. }
  assert (∀ m, m ∈ rest → m ∈ universe) as Hrest
    by (intros m Hm; apply Huni; by right).
  destruct (decide (neighbor ∈ visited st)) as [Hvis | Hnew].
  - destruct (decide (neighbor ∈ rec_stack st)) as [Hstack | Hdone].
    + rewrite dfs_neighbors_on_stack by done.
      destruct Hinv as (Hpath & Hsub & Hu).
      destruct (record_cycle_spec neighbor path st) as
        (st1 & i & -> & Hi & Hv1 & Hr1 & Hc1 & _ & Hrecorded);
        [by apply Hpath |].
      assert (stack_inv universe path st1) as Hinv1.
      { split; [| split]; rewrite ?Hv1, ?Hr1; done. }
      assert (cycles st1 ≠ []) as Hsome.
      { intros Hnil. rewrite Hnil in Hrecorded.
        by apply elem_of_nil in Hrecorded. }
      destruct (IH path st1 Hinv1) as (st' & -> & Hstep & Hinv' & Hno' & _);
        [done | done | by rewrite Hv1 |].
      exists st'. split; [done |]. split.
      { eapply dfs_step_trans; [| done].
        split; [done | split; [by rewrite Hv1 | done]]. }
      split; [done |]. split; [done |].
      intros Hnil. by apply (cycles_step_nil _ _ Hstep) in Hnil.
    + rewrite dfs_neighbors_finished by done.
      destruct (IH path st Hinv Hno Hrest Hfuel)
        as (st' & -> & Hstep & Hinv' & Hno' & Hall).
      exists st'. split; [done |]. split; [done |]. split; [done |].
      split; [done |].
      intros Hnil m Hm. apply elem_of_cons in Hm as [-> | Hm]; [| by apply Hall].
      apply (finished_step st); [done |]. unfold finished. set_solver.
  - rewrite dfs_neighbors_unvisited by done.
    destruct (Hcall neighbor path st Hinv Hno Hnew) as
      (st1 & -> & Hstep1 & Hinv1 & Hvis1 & Hno1); [apply Huni; by left | done |].
    destruct (IH path st1 Hinv1 Hno1 Hrest)
      as (st' & -> & Hstep & Hinv' & Hno' & Hall).
    { eapply Nat.le_lt_trans; [| exact Hfuel].
      apply universe_left_mono, Hstep1. }
    exists st'. split; [done |]. split; [by eapply dfs_step_trans |].
    split; [done |]. split; [done |].
    intros Hnil m Hm. apply elem_of_cons in Hm as [-> | Hm]; [| by apply Hall].
    apply (finished_step st1); [done |]. unfold finished.
    destruct Hstep1 as (Hr1 & _ & _). destruct Hinv as (_ & Hsub & _).
    rewrite Hr1. set_solver.
Qed.

Lemma dfs_acyclic fuel : call_spec_acyclic graph universe fuel (dfs fuel graph).
Proof.
  induction fuel as [| fuel IH];
    intros node path st Hinv Hno Hnew Hnode Hfuel; [lia |].
  destruct Hinv as (Hpath & Hsub & Hu).
  assert (node ∉ rec_stack st) as Hnostack by set_solver.
  rewrite dfs_unfold.
  assert (py_iter (default (DepList []) (graph !! node))
            = Ok (neighbors_of graph node)) as ->.
  { unfold neighbors_of. pose proof (graph_iterable node) as Hiter.
    destruct (graph !! node) as [[l |] |]; done. }
  set (st1 := {| visited := {[node]} ∪ visited st;
                 rec_stack := {[node]} ∪ rec_stack st;
                 cycles := cycles st |}).
  assert (stack_inv universe (path ++ [node]) st1) as Hinv1.
  { split; [| split]; cbn [visited rec_stack cycles st1].
    - intros x. rewrite elem_of_app, list_elem_of_singleton, Hpath.
      set_solver.
    - set_solver.
    - set_solver. }
  assert (finished st1 = finished st) as Hfin1
    by (unfold finished; cbn [visited rec_stack st1]; set_solver).
  assert (no_cycle_so_far graph st1) as Hno1.
  { unfold no_cycle_so_far. rewrite Hfin1. exact Hno. }
  destruct (dfs_neighbors_acyclic fuel (dfs fuel graph) IH
              (neighbors_of graph node) (path ++ [node]) st1 Hinv1 Hno1)
    as (st2 & -> & (Hr2 & Hv2 & Hc2) & Hinv2 & Hno2 & Hnbrs).
  { intros m. apply universe_closed. }
  { assert (size (universe ∖ visited st1) < size (universe ∖ visited st))
      by (by apply (universe_left_decreases universe node)).
    lia. }
  destruct Hinv2 as (Hpath2 & Hsub2 & Hu2).
  cbn [visited rec_stack cycles st1] in Hr2, Hv2, Hc2.
  rewrite rec_stack_remove_present by (rewrite Hr2; set_solver).
  eexists. split; [done |]. cbn [visited rec_stack cycles].
  assert (rec_stack st2 ∖ {[node]} = rec_stack st) as Hback
    by (rewrite Hr2; set_solver).
  split; [split; [done | split; [set_solver | done]] |].
  split; [split; [| split]; cbn [visited rec_stack]; rewrite ?Hback;
          [apply Hpath | set_solver | done] |].
  split; [set_solver |].
  (* the node joins the finished ones *)
  intros Hnil. cbn [cycles] in Hnil.
  destruct (Hno2 Hnil) as [Hclosed Hacyclic].
  specialize (Hnbrs Hnil).
  assert (∀ x, x ∈ finished {| visited := visited st2;
                              rec_stack := rec_stack st2 ∖ {[node]};
                              cycles := cycles st2 |}
               ↔ x = node ∨ x ∈ finished st2) as Hfin.
  { intros x. unfold finished. cbn [visited rec_stack]. rewrite Hback, Hr2.
    destruct (decide (x = node)) as [-> | Hne]; set_solver. }
  assert (node ∉ finished st2) as Hon
    by (unfold finished; rewrite Hr2; set_solver).
  split.
  - intros u v Hu' Hdep. apply Hfin. right.
    apply Hfin in Hu' as [-> | Hu']; [by apply Hnbrs | by eapply Hclosed].
  - intros x Hx Hcycle. apply Hfin in Hx as [-> | Hx]; [| by eapply Hacyclic].
    destruct (tc_first_step _ _ _ Hcycle) as (v & Hdep & Hback').
    apply Hon. eapply finished_closed_rtc; [done | | done]. by apply Hnbrs.
Qed.

End Completeness.


(** The visited set only grows. *)
Lemma dfs_neighbors_visited call :
  (∀ node path st st',
     call node path st = Some (Ok st') → visited st ⊆ visited st') →
  ∀ neighbors path st st',
    dfs_neighbors call path neighbors st = Some (Ok st') →
    visited st ⊆ visited st'.
Proof.
  intros Hcall neighbors.
  induction neighbors as [| neighbor rest IH]; intros path st st' Hrun.
  { cbn in Hrun. by injection Hrun as <-. }
  cbn [dfs_neighbors] in Hrun. case_bool_decide.
  - destruct (call neighbor path st) as [[st1 | e] |] eqn:Hcalled; try done.
    etrans; [by eapply Hcall | by eapply IH].
  - case_bool_decide; [| by eapply IH].
    destruct (record_cycle neighbor path st) as [st1 | e] eqn:Hrecord;
      [| done].
    apply record_cycle_visited in Hrecord. rewrite <- Hrecord. by eapply IH.
Qed.

Lemma dfs_visited fuel graph node path st st' :
  dfs fuel graph node path st = Some (Ok st') → visited st ⊆ visited st'.
Proof.
  revert node path st st'.
  induction fuel as [| fuel IH]; intros node path st st' Hrun; [done |].
  rewrite dfs_unfold in Hrun.
  destruct (py_iter _) as [neighbors | e]; [| done].
  destruct (dfs_neighbors _ _ _ _) as [[st2 | e] |] eqn:Hloop; try done.
  unfold rec_stack_remove in Hrun. case_bool_decide; [| done].
  injection Hrun as <-. cbn [visited].
  apply (dfs_neighbors_visited (dfs fuel graph) IH) in Hloop.
  cbn [visited] in Hloop. set_solver.
Qed.

Lemma check_all_nodes_spec_visited graph fuel tasks st st' x :
  check_all_nodes fuel graph tasks st = Some (Ok st') →
  x ∈ visited st → x ∈ visited st'.
Proof.
  revert st. induction tasks as [| task rest IH]; intros st Hrun Hx.
  { cbn in Hrun. by injection Hrun as <-. }
  cbn [check_all_nodes] in Hrun. case_bool_decide; [| by eapply IH].
  destruct (dfs fuel graph (task_key task) [] st) as [[st1 | e] |] eqn:Hdfs;
    try done.
  eapply IH; [exact Hrun |]. by eapply dfs_visited.
Qed.

Lemma check_all_nodes_acyclic graph universe fuel :
  (∀ node, graph !! node ≠ Some DepNotIterable) →
  (∀ node m, m ∈ neighbors_of graph node → m ∈ universe) →
  ∀ tasks st,
    stack_inv universe [] st → no_cycle_so_far graph st →
    (∀ task, task ∈ tasks → task_key task ∈ universe) →
    size (universe ∖ visited st) < fuel →
    ∃ st', check_all_nodes fuel graph tasks st = Some (Ok st') ∧
           stack_inv universe [] st' ∧ no_cycle_so_far graph st' ∧
           (∀ task, task ∈ tasks → task_key task ∈ visited st').
Proof.
  intros Hiter Hclosed tasks.
  induction tasks as [| task rest IH]; intros st Hinv Hno Hkeys Hfuel.
  { exists st. split; [done |]. split; [done |]. split; [done |].
    intros task Hin. by apply elem_of_nil in Hin. }
  assert (∀ t, t ∈ rest → task_key t ∈ universe) as Hrest
    by (intros t Ht; apply Hkeys; by right).
  destruct (decide (task_key task ∈ visited st)) as [Hvis | Hnew].
  - rewrite check_all_nodes_visited by done.
    pose proof (check_all_nodes_spec_visited graph fuel rest st) as Hmono.
    destruct (IH st Hinv Hno Hrest Hfuel) as (st' & Hrun & Hinv' & Hno' & Hall).
    exists st'. split; [done |]. split; [done |]. split; [done |].
    intros t Ht. apply elem_of_cons in Ht as [-> | Ht]; [| by apply Hall].
    by eapply Hmono.
  - rewrite check_all_nodes_unvisited by done.
    destruct (dfs_acyclic graph universe Hiter Hclosed fuel
                (task_key task) [] st Hinv Hno Hnew)
      as (st1 & -> & Hstep1 & Hinv1 & Hvis1 & Hno1);
      [apply Hkeys; by left | done |].
    pose proof (check_all_nodes_spec_visited graph fuel rest st1) as Hmono.
    destruct (IH st1 Hinv1 Hno1 Hrest) as (st' & Hrun & Hinv' & Hno' & Hall).
    { eapply Nat.le_lt_trans; [| exact Hfuel].
      apply universe_left_mono, Hstep1. }
    exists st'. split; [done |]. split; [done |]. split; [done |].
    intros t Ht. apply elem_of_cons in Ht as [-> | Ht]; [| by apply Hall].
    by eapply Hmono.
Qed.

Lemma detect_complete tasks :
  Forall (λ task, deps_iterable task = true) tasks →
  ∃ found,
    detect_circular_dependencies tasks = Some (Ok found) ∧
    (found = [] ↔ acyclic (build_graph tasks)).
Proof.
  intros Hiter.
  destruct (detect_circular_dependencies_spec tasks Hiter)
    as (found & Hrun & _).
  exists found. split; [done |]. split.
  - (* nothing reported: the finished nodes, all keys, lie on no cycle *)
    intros ->. revert Hrun. unfold detect_circular_dependencies.
    set (universe := list_to_set (mentioned tasks) : gset ident).
    destruct (check_all_nodes_acyclic (build_graph tasks) universe
                (dfs_fuel tasks)
                (λ node, build_graph_iterable tasks node Hiter)
                (λ node m, neighbors_mentioned tasks node m)
                tasks {| visited := ∅; rec_stack := ∅; cycles := [] |})
      as (st' & -> & (Hpath & _ & _) & Hno & Hall).
    + split; [| split]; cbn [visited rec_stack]; set_solver.
    + intros _. unfold finished. cbn [visited rec_stack].
      split; intros ? ?; set_solver.
    + intros task Hin. apply elem_of_list_to_set. by apply mentioned_key.
    + cbn [visited]. unfold dfs_fuel.
      assert (size (universe ∖ ∅) ≤ size universe)
        by (apply subseteq_size; set_solver).
      pose proof (size_list_to_set_le (mentioned tasks)) as Hsize.
      fold universe in Hsize. lia.
    + intros [= Hnil]. destruct (Hno Hnil) as [_ Hacyclic].
      intros x Hcycle. apply (Hacyclic x); [| done].
      destruct (tc_first_step _ _ _ Hcycle) as (z & Hdep & _).
      unfold depends_on, neighbors_of in Hdep.
      destruct (build_graph tasks !! x) as [deps |] eqn:Hlook;
        cbn [default from_option id] in Hdep;
        [| by apply elem_of_nil in Hdep].
      destruct (build_graph_lookup _ _ _ Hlook) as (task & Hin & <- & _).
      unfold finished. apply elem_of_difference. split; [by apply Hall |].
      intros Hstack. apply Hpath in Hstack. by apply elem_of_nil in Hstack.
  - (* every reported set is a cycle *)
    intros Hacyclic. destruct found as [| c found]; [done |].
    pose proof (detect_sound tasks _ Hrun) as Hsound.
    apply Forall_cons in Hsound as [[Hne Hcycle] _].
    apply set_choose_L in Hne as [x Hx].
    destruct (Hacyclic x). by apply Hcycle.
Qed.

(** On a list whose ['dependencies'] entries are lists, the detection
    reports no cycle exactly when the graph it built has none: a cyclic
    dependency is never missed, and none is invented. *)
Theorem no_cycle_reported_iff_acyclic tasks :
  Forall (λ task, deps_iterable task = true) tasks →
  ∃ found,
    detect_circular_dependencies tasks = Some (Ok found) ∧
    (found = [] ↔ acyclic (build_graph tasks)).
Proof. apply detect_complete. Qed.

Lemma no_cycle_reported_iff_acyclic_witness :
  ∃ found,
    detect_circular_dependencies
      [dep_task (IInt 1) []; dep_task (IInt 2) [IInt 1];
       dep_task (IInt 3) [IInt 2]]
      = Some (Ok found) ∧
    (found = [] ↔
     acyclic (build_graph
                [dep_task (IInt 1) []; dep_task (IInt 2) [IInt 1];
                 dep_task (IInt 3) [IInt 2]])).
Proof.
  apply (no_cycle_reported_iff_acyclic
           [dep_task (IInt 1) []; dep_task (IInt 2) [IInt 1];
            dep_task (IInt 3) [IInt 2]]).
  repeat constructor.
Defined.

(** ** Normalisation *)

Lemma normalize_from_iterable idx raw_tasks :
  Forall (λ task, deps_iterable task = true) (normalize_from idx raw_tasks).
Proof.
  revert idx. induction raw_tasks as [| [task |] rest IH]; intros idx;
    cbn [normalize_from]; [constructor | | apply IH].
  constructor; [done | apply IH].
Qed.

Lemma normalize_from_length idx raw_tasks :
  length (normalize_from idx raw_tasks)
    = length (List.filter is_dict raw_tasks).
Proof.
  revert idx. induction raw_tasks as [| [task |] rest IH]; intros idx;
    cbn [normalize_from List.filter is_dict length]; [done | | apply IH].
  by rewrite IH.
Qed.

Lemma normalize_task_again idx idx' task :
  match entry_of_task (normalize_task idx task) with
  | RawDict task' => normalize_task idx' task' = normalize_task idx task
  | RawOther => False
  end.
Proof.
  unfold normalize_task, entry_of_task.
  cbn [task_id task_title due_date estimated_hours importance dependencies
       raw_id raw_title raw_due_date raw_estimated_hours raw_importance
       raw_dependencies default from_option id].
  generalize (match deps_or_empty
                      (default (RawList []) (raw_dependencies task)) with
              | RawList l => l
              | RawScalar v => [v]
              end).
  by intros [| ? ?].
Qed.

Lemma normalize_from_again idx idx' raw_tasks :
  normalize_from idx' (entry_of_task <$> normalize_from idx raw_tasks)
    = normalize_from idx raw_tasks.
Proof.
  revert idx idx'. induction raw_tasks as [| [task |] rest IH];
    intros idx idx'; cbn [normalize_from fmap list_fmap]; [done | | apply IH].
  pose proof (normalize_task_again idx idx' task) as Hagain.
  destruct (entry_of_task (normalize_task idx task)) as [task' |];
    [| done].
  cbn [normalize_from]. by rewrite Hagain, IH.
Qed.

(** Normalisation is idempotent, and what it returns has the expected
    shape: normalised tasks sent back as a request are normalised to
    themselves; there is one for each dictionary of the request, and each
    has a list under ['dependencies']. *)
Theorem normalize_tasks_idempotent raw_tasks :
  _normalize_tasks (entry_of_task <$> _normalize_tasks raw_tasks)
    = _normalize_tasks raw_tasks ∧
  length (_normalize_tasks raw_tasks)
    = length (List.filter is_dict raw_tasks) ∧
  Forall (λ task, ∃ l, dependencies task = Some (DepList l))
    (_normalize_tasks raw_tasks).
Proof.
  split; [apply normalize_from_again |].
  split; [apply normalize_from_length |].
  unfold _normalize_tasks. generalize 0%nat.
  induction raw_tasks as [| [task |] rest IH]; intros idx;
    cbn [normalize_from]; [constructor | | apply IH].
  constructor; [by eexists | apply IH].
Qed.

Lemma normalize_from_keys idx raw_tasks key :
  forallb without_id raw_tasks = true →
  key ∈ task_key <$> normalize_from idx raw_tasks →
  ∃ n, key = IInt n ∧ (Z.of_nat idx < n)%Z.
Proof.
  revert idx. induction raw_tasks as [| [task |] rest IH]; intros idx Hno;
    cbn [normalize_from fmap list_fmap]; intros Hin.
  - by apply elem_of_nil in Hin.
  - cbn [forallb without_id] in Hno.
    apply andb_prop in Hno as [Hid Hno]. apply bool_decide_eq_true in Hid.
    apply elem_of_cons in Hin as [-> | Hin].
    + unfold normalize_task, task_key. cbn [task_id]. rewrite Hid.
      cbn [default from_option id]. eexists. split; [done | lia].
    + destruct (IH (S idx) Hno Hin) as (n & -> & Hlt).
      exists n. split; [done | lia].
  - destruct (IH (S idx) Hno Hin) as (n & -> & Hlt).
    exists n. split; [done | lia].
Qed.

(** When no entry of the request gives an ['id'], the identifiers that
    normalisation hands out are pairwise distinct. *)
Theorem generated_ids_are_distinct raw_tasks :
  forallb without_id raw_tasks = true →
  NoDup (task_key <$> _normalize_tasks raw_tasks).
Proof.
  unfold _normalize_tasks. generalize 0%nat.
  induction raw_tasks as [| [task |] rest IH]; intros idx Hno;
    cbn [normalize_from fmap list_fmap]; [constructor | |].
  - cbn [forallb without_id] in Hno.
    apply andb_prop in Hno as [Hid Hno]. apply bool_decide_eq_true in Hid.
    constructor; [| by apply IH].
    intros Hin.
    destruct (normalize_from_keys _ _ _ Hno Hin) as (n & Hkey & Hlt).
    unfold normalize_task, task_key in Hkey. cbn [task_id] in Hkey.
    rewrite Hid in Hkey. cbn [default from_option id] in Hkey.
    injection Hkey as <-. lia.
  - by apply IH.
Qed.

Lemma generated_ids_are_distinct_witness :
  NoDup (task_key <$> _normalize_tasks
    [RawDict (RawTask None (Some (IStr "a")) None None None None);
     RawOther;
     RawDict (RawTask None None None None None
                (Some (RawScalar (IInt 1))))]).
Proof.
  apply (generated_ids_are_distinct
    [RawDict (RawTask None (Some (IStr "a")) None None None None);
     RawOther;
     RawDict (RawTask None None None None None
                (Some (RawScalar (IInt 1))))]).
  reflexivity.
Defined.

(** ** The sort of the views *)

Section Sorting.

Context {A : Type}.

Implicit Types (x y : A * pyfloat) (l : list (A * pyfloat)).

Lemma insert_by_score_perm x l : insert_by_score x l ≡ₚ x :: l.
Proof.
  induction l as [| y rest IH]; cbn [insert_by_score]; [done |].
  destruct (flt x.2 y.2); [| done].
  rewrite IH. apply Permutation_swap.
Qed.

Lemma sorted_by_score_perm l : sorted_by_score l ≡ₚ l.
Proof.
  induction l as [| x rest IH]; [done |].
  change (sorted_by_score (x :: rest))
    with (insert_by_score x (sorted_by_score rest)).
  rewrite insert_by_score_perm. by constructor.
Qed.

Lemma insert_by_score_sorted x l :
  key_finite x → Forall key_finite l →
  StronglySorted key_not_lower l →
  StronglySorted key_not_lower (insert_by_score x l).
Proof.
  intros [p Hp] Hfin Hsorted.
  induction l as [| y rest IH]; cbn [insert_by_score].
  { repeat constructor. }
  apply Forall_cons in Hfin as [[q Hq] Hfin].
  apply StronglySorted_inv in Hsorted as [Hrest Hy].
  destruct (flt x.2 y.2) eqn:Hlt.
  - constructor; [by apply IH |].
    rewrite insert_by_score_perm. constructor; [| done].
    unfold key_not_lower. rewrite Hp, Hq in *.
    apply flt_fin in Hlt. apply fle_fin. lra.
  - rewrite Hp, Hq in Hlt. apply flt_fin_false in Hlt.
    constructor; [by constructor |].
    constructor; [unfold key_not_lower; rewrite Hp, Hq; by apply fle_fin |].
    rewrite Forall_forall in Hy, Hfin. apply Forall_forall. intros z Hz.
    destruct (Hfin z Hz) as [r Hr]. specialize (Hy z Hz).
    unfold key_not_lower in *. rewrite Hp, Hq, Hr in *.
    apply fle_fin in Hy. apply fle_fin. lra.
Qed.

Lemma sorted_by_score_sorted l :
  Forall key_finite l → StronglySorted key_not_lower (sorted_by_score l).
Proof.
  induction l as [| x rest IH]; intros Hfin; [constructor |].
  change (sorted_by_score (x :: rest))
    with (insert_by_score x (sorted_by_score rest)).
  apply Forall_cons in Hfin as [Hx Hfin].
  apply insert_by_score_sorted; [done | | by apply IH].
  by rewrite sorted_by_score_perm.
Qed.

(** Elements of equal keys keep their order. *)
Lemma insert_by_score_stable k x l :
  key_finite x → Forall key_finite l →
  List.filter (key_is k) (insert_by_score x l)
    = List.filter (key_is k) (x :: l).
Proof.
  intros [p Hp] Hfin.
  induction l as [| y rest IH]; cbn [insert_by_score]; [done |].
  apply Forall_cons in Hfin as [[q Hq] Hfin].
  destruct (flt x.2 y.2) eqn:Hlt; [| done].
  rewrite Hp, Hq in Hlt. apply flt_fin in Hlt.
  cbn [List.filter]. rewrite (IH Hfin). cbn [List.filter].
  assert (key_is k x = Qeq_bool p k) as -> by (unfold key_is; by rewrite Hp).
  assert (key_is k y = Qeq_bool q k) as -> by (unfold key_is; by rewrite Hq).
  destruct (Qeq_bool q k) eqn:Hqk, (Qeq_bool p k) eqn:Hpk; try done.
  apply Qeq_bool_iff in Hqk, Hpk. lra.
Qed.

Lemma sorted_by_score_stable k l :
  Forall key_finite l →
  List.filter (key_is k) (sorted_by_score l) = List.filter (key_is k) l.
Proof.
  induction l as [| x rest IH]; intros Hfin; [done |].
  apply Forall_cons in Hfin as [Hx Hfin].
  change (sorted_by_score (x :: rest))
    with (insert_by_score x (sorted_by_score rest)).
  rewrite insert_by_score_stable; [| done | by rewrite sorted_by_score_perm].
  cbn [List.filter]. by rewrite (IH Hfin).
Qed.

End Sorting.

Lemma sort_key_finite e q :
  priority_score e = FFin q → ∃ q', sort_key e = FFin q' ∧ (q' == q)%Q.
Proof.
  intros Hq. unfold sort_key. rewrite Hq.
  destruct (Qeq_bool q 0) eqn:Hzero.
  - apply Qeq_bool_iff in Hzero. exists (inject_Z 0). split; [done |].
    rewrite Hzero. reflexivity.
  - exists q. split; [done | reflexivity].
Qed.

Lemma filter_fmap_fst {A B} (P : A → bool) (Q : A * B → bool)
    (l : list (A * B)) :
  Forall (λ x, P x.1 = Q x) l →
  List.filter P (l.*1) = (List.filter Q l).*1.
Proof.
  induction 1 as [| x rest Hx _ IH]; [done |].
  cbn [fmap list_fmap List.filter]. rewrite Hx.
  destruct (Q x); cbn [fmap list_fmap]; by rewrite IH.
Qed.

Lemma sorted_keys_not_lower (l : list (enriched_task * pyfloat)) :
  Forall (λ x, x.2 = sort_key x.1 ∧ ∃ q, priority_score x.1 = FFin q) l →
  StronglySorted key_not_lower l → StronglySorted not_lower l.*1.
Proof.
  intros Hgood Hsorted.
  induction Hsorted as [| x rest Hrest IH Hx]; [constructor |].
  apply Forall_cons in Hgood as [[Hkey [q Hq]] Hgood].
  cbn [fmap list_fmap]. constructor; [by apply IH |].
  apply Forall_fmap, Forall_forall. intros y Hy.
  rewrite Forall_forall in Hx, Hgood.
  specialize (Hx y Hy). destruct (Hgood y Hy) as [Hkey' [r Hr]].
  destruct (sort_key_finite _ _ Hq) as (q' & Hq' & Heq).
  destruct (sort_key_finite _ _ Hr) as (r' & Hr' & Heq').
  unfold key_not_lower in Hx. unfold not_lower. cbn [compose].
  rewrite Hkey, Hkey', Hq', Hr' in Hx. rewrite Hq, Hr.
  apply fle_fin in Hx. apply fle_fin. lra.
Qed.

(** What [sort] does to a list of scored tasks whose scores are finite
    numbers: it permutes it, highest score first, and tasks of equal
    scores keep their order. *)
Lemma sort_scored_spec scored :
  Forall (λ e, ∃ q, priority_score e = FFin q) scored →
  sort_scored scored ≡ₚ scored ∧
  StronglySorted not_lower (sort_scored scored) ∧
  ∀ k, List.filter (has_score k) (sort_scored scored)
         = List.filter (has_score k) scored.
Proof.
  intros Hfin. unfold sort_scored.
  set (pairs := (λ e, (e, sort_key e)) <$> scored).
  assert (pairs.*1 = scored) as Hfst.
  { unfold pairs. rewrite <- list_fmap_compose.
    rewrite <- (list_fmap_id scored) at 2. by apply list_fmap_ext. }
  assert (Forall (λ x, x.2 = sort_key x.1 ∧ ∃ q, priority_score x.1 = FFin q)
            pairs) as Hpairs.
  { unfold pairs. apply Forall_fmap. eapply Forall_impl; [exact Hfin |].
    by intros e [q Hq]; split; [| exists q]. }
  assert (Forall key_finite pairs) as Hkeys.
  { eapply Forall_impl; [exact Hpairs |]. intros x [Hkey [q Hq]].
    destruct (sort_key_finite _ _ Hq) as (q' & Hq' & _).
    exists q'. by rewrite Hkey. }
  assert (∀ k, Forall (λ x, has_score k x.1 = key_is k x) pairs) as Hsame.
  { intros k. eapply Forall_impl; [exact Hpairs |]. intros x [Hkey [q Hq]].
    destruct (sort_key_finite _ _ Hq) as (q' & Hq' & Heq).
    unfold has_score, key_is. rewrite Hkey, Hq, Hq'.
    destruct (Qeq_bool q k) eqn:H1, (Qeq_bool q' k) eqn:H2; try done.
    - apply Qeq_bool_iff in H1. apply Qeq_bool_neq in H2. lra.
    - apply Qeq_bool_iff in H2. apply Qeq_bool_neq in H1. lra. }
  pose proof (sorted_by_score_perm pairs) as Hperm.
  split; [by rewrite Hperm, Hfst |]. split.
  - apply sorted_keys_not_lower; [by rewrite Hperm |].
    by apply sorted_by_score_sorted.
  - intros k.
    rewrite (filter_fmap_fst (has_score k) (key_is k)) by by rewrite Hperm.
    rewrite sorted_by_score_stable by done.
    rewrite <- (filter_fmap_fst (has_score k) (key_is k)) by done.
    by rewrite Hfst.
Qed.

(** ** The two views *)

Section ViewsProperties.

Context (today : Z) (strptime : string → option Z)
        (float_of_str : string → option pyfloat)
        (json_loads : string → option tasks_value).

Lemma score_task_in_range strategy task all_tasks :
  ∃ r : score_data,
    score_task today strptime float_of_str (TaskScorer_init strategy)
      task all_tasks = Ok r ∧
    in_range 0 10 (score r).
Proof.
  unfold score_task.
  destruct (urgency_score_range today strptime
              (default VNone (due_date task)))
    as (u' & -> & (u & -> & Hu)).
  destruct (importance_score_cases float_of_str
              (default VNone (importance task)))
    as [(i' & -> & (i & -> & Hi)) | ->];
    [| cbn; eexists; split; [done | cbn; apply in_range_fin; lra]].
  destruct (effort_score_cases float_of_str
              (default VNone (estimated_hours task)))
    as [(e' & -> & (e & -> & He)) | ->];
    [| cbn; eexists; split; [done | cbn; apply in_range_fin; lra]].
  destruct (dependency_score_range (task_key task) all_tasks)
    as (d' & -> & (d & -> & Hd)).
  assert ((0 <= i)%Q ∧ (i <= 10)%Q) as Hi' by (split; lra).
  destruct (blend_rounded strategy u i e d Hu Hi' He Hd)
    as (n & Hround & _ & _ & Hn).
  cbn [bind try_except_Exception fmul fadd]. eexists. split; [done |].
  cbn [score]. rewrite Hround. destruct Hn. by apply in_range_fin.
Qed.

(** The loop of the views scores every task, in order, and never raises. *)
Lemma score_all_spec strategy tasks all_tasks :
  ∃ scored,
    score_all today strptime float_of_str (TaskScorer_init strategy)
      tasks all_tasks = Ok scored ∧
    e_task <$> scored = tasks ∧
    Forall (scored_as today strptime float_of_str
              (TaskScorer_init strategy) all_tasks) scored.
Proof.
  induction tasks as [| task rest (scored & Hrest & Htasks & Hall)];
    cbn [score_all].
  { exists []. by repeat split. }
  destruct (score_task_in_range strategy task all_tasks) as (r & Hr & Hrange).
  rewrite Hr, Hrest. cbn [bind]. eexists. split; [done |].
  split; [cbn [fmap list_fmap e_task]; by rewrite Htasks |].
  constructor; [| done].
  exists r. by cbn [e_task priority_score score_components explanation].
Qed.

Lemma scored_as_finite scorer all_tasks scored :
  Forall (scored_as today strptime float_of_str scorer all_tasks) scored →
  Forall (λ e, ∃ q, priority_score e = FFin q) scored.
Proof.
  intros Hall. eapply Forall_impl; [exact Hall |].
  intros e (r & _ & -> & _ & _ & (q & -> & _)). by exists q.
Qed.

(** What [analyze_tasks] answers to a non-empty list. *)
Lemma analyze_tasks_ok request raw_tasks :
  data_tasks request = Some (TasksList raw_tasks) → raw_tasks ≠ [] →
  ∃ scored cycles,
    score_all today strptime float_of_str
      (TaskScorer_init (default "smart_balance" (data_strategy request)))
      (_normalize_tasks raw_tasks) (_normalize_tasks raw_tasks)
      = Ok scored ∧
    detect_circular_dependencies (_normalize_tasks raw_tasks)
      = Some (Ok cycles) ∧
    (cycles = [] ↔ acyclic (build_graph (_normalize_tasks raw_tasks))) ∧
    analyze_tasks today strptime float_of_str request
      = Some {| status := 200;
                body := AnalysisBody
                  (default "smart_balance" (data_strategy request))
                  (sort_scored scored) cycles |}.
Proof.
  intros Hdata Hne. unfold analyze_tasks. rewrite Hdata.
  cbn [default from_option id].
  destruct raw_tasks as [| entry entries]; [done |].
  destruct (detect_complete (_normalize_tasks (entry :: entries)))
    as (cycles & Hdetect & Hiff); [apply normalize_from_iterable |].
  destruct (score_all_spec (default "smart_balance" (data_strategy request))
              (_normalize_tasks (entry :: entries))
              (_normalize_tasks (entry :: entries)))
    as (scored & Hscored & _).
  exists scored, cycles. by rewrite Hdetect, Hscored.
Qed.

(** A request with a non-empty list of tasks is answered with status 200
    and every normalised task, scored by [score_task] among all of them and
    explained by [generate_explanation]; the tasks are ranked by score,
    highest first, and tasks of equal scores keep the order of the
    request. *)
Theorem analyze_tasks_ranks_every_task request raw_tasks :
  data_tasks request = Some (TasksList raw_tasks) → raw_tasks ≠ [] →
  ∃ scored ranked cycles,
    analyze_tasks today strptime float_of_str request
      = Some {| status := 200;
                body := AnalysisBody
                  (default "smart_balance" (data_strategy request))
                  ranked cycles |} ∧
    e_task <$> scored = _normalize_tasks raw_tasks ∧
    Forall (scored_as today strptime float_of_str
              (TaskScorer_init
                 (default "smart_balance" (data_strategy request)))
              (_normalize_tasks raw_tasks)) scored ∧
    ranked ≡ₚ scored ∧
    StronglySorted not_lower ranked ∧
    ∀ k, List.filter (has_score k) ranked = List.filter (has_score k) scored.
Proof.
  intros Hdata Hne.
  destruct (analyze_tasks_ok request raw_tasks Hdata Hne)
    as (scored & cycles & Hscored & _ & _ & ->).
  destruct (score_all_spec (default "smart_balance" (data_strategy request))
              (_normalize_tasks raw_tasks) (_normalize_tasks raw_tasks))
    as (scored' & Hscored' & Htasks & Hall).
  rewrite Hscored in Hscored'. injection Hscored' as <-.
  destruct (sort_scored_spec scored (scored_as_finite _ _ _ Hall))
    as (Hperm & Hsorted & Hstable).
  by exists scored, (sort_scored scored), cycles.
Qed.

(** The ['circular_dependencies'] of the answer are empty exactly when
    the graph of the normalised tasks has no cycle, and each of them is a
    cycle of that graph. *)
Theorem analyze_tasks_reports_cycles request raw_tasks :
  data_tasks request = Some (TasksList raw_tasks) → raw_tasks ≠ [] →
  ∃ ranked cycles,
    analyze_tasks today strptime float_of_str request
      = Some {| status := 200;
                body := AnalysisBody
                  (default "smart_balance" (data_strategy request))
                  ranked cycles |} ∧
    (cycles = [] ↔ acyclic (build_graph (_normalize_tasks raw_tasks))) ∧
    Forall (on_a_cycle (build_graph (_normalize_tasks raw_tasks))) cycles.
Proof.
  intros Hdata Hne.
  destruct (analyze_tasks_ok request raw_tasks Hdata Hne)
    as (scored & cycles & _ & Hdetect & Hiff & ->).
  exists (sort_scored scored), cycles. split; [done |]. split; [done |].
  by apply detect_sound.
Qed.


(** The suggestions are the head of the ranking: for a non-empty list of
    tasks and the same strategy, [suggest_tasks] answers with the first
    three tasks of the ranking of [analyze_tasks], or all of them when
    there are fewer, and with their number; no task left out scores higher
    than a suggested one. *)
Theorem suggest_tasks_top_of_ranking request raw_tasks :
  data_tasks request = Some (TasksList raw_tasks) → raw_tasks ≠ [] →
  query_strategy request = data_strategy request →
  ∃ ranked cycles,
    analyze_tasks today strptime float_of_str request
      = Some {| status := 200;
                body := AnalysisBody
                  (default "smart_balance" (data_strategy request))
                  ranked cycles |} ∧
    suggest_tasks today strptime float_of_str json_loads request
      = {| status := 200;
           body := SuggestionBody
             (default "smart_balance" (data_strategy request))
             (take 3 ranked)
             (3 `min` length (List.filter is_dict raw_tasks)) |} ∧
    ∀ e1 e2, e1 ∈ take 3 ranked → e2 ∈ drop 3 ranked → not_lower e1 e2.
Proof.
  intros Hdata Hne Hstrategy.
  destruct (analyze_tasks_ok request raw_tasks Hdata Hne)
    as (scored & cycles & Hscored & _ & _ & ->).
  destruct (score_all_spec (default "smart_balance" (data_strategy request))
              (_normalize_tasks raw_tasks) (_normalize_tasks raw_tasks))
    as (scored' & Hscored' & Htasks & Hall).
  rewrite Hscored in Hscored'. injection Hscored' as <-.
  destruct (sort_scored_spec scored (scored_as_finite _ _ _ Hall))
    as (Hperm & Hsorted & _).
  exists (sort_scored scored), cycles. split; [done |]. split.
  - unfold suggest_tasks. rewrite Hdata, Hstrategy.
    destruct raw_tasks as [| entry entries]; [done |].
    cbn [tasks_truthy]. rewrite Hscored. do 2 f_equal.
    rewrite length_take, Hperm, <- (length_fmap e_task), Htasks.
    unfold _normalize_tasks. rewrite normalize_from_length. lia.
  - intros e1 e2 H1 H2.
    rewrite <- (take_drop 3 (sort_scored scored)) in Hsorted.
    by eapply (StronglySorted_app_1_elem_of _ _ _ _ _ Hsorted).
Qed.


End ViewsProperties.

Lemma analyze_tasks_ranks_every_task_witness :
  ∃ scored ranked cycles,
    analyze_tasks 739000 (λ _, None) (λ _, None) example_request
      = Some {| status := 200;
                body := AnalysisBody
                  (default "smart_balance" (data_strategy example_request))
                  ranked cycles |} ∧
    e_task <$> scored = _normalize_tasks example_tasks ∧
    Forall (scored_as 739000 (λ _, None) (λ _, None)
              (TaskScorer_init
                 (default "smart_balance" (data_strategy example_request)))
              (_normalize_tasks example_tasks)) scored ∧
    ranked ≡ₚ scored ∧
    StronglySorted not_lower ranked ∧
    ∀ k, List.filter (has_score k) ranked = List.filter (has_score k) scored.
Proof.
  apply (analyze_tasks_ranks_every_task 739000 (λ _, None) (λ _, None)
           example_request example_tasks);
    [reflexivity | discriminate].
Defined.

Lemma analyze_tasks_reports_cycles_witness :
  ∃ ranked cycles,
    analyze_tasks 739000 (λ _, None) (λ _, None) example_request
      = Some {| status := 200;
                body := AnalysisBody
                  (default "smart_balance" (data_strategy example_request))
                  ranked cycles |} ∧
    (cycles = [] ↔ acyclic (build_graph (_normalize_tasks example_tasks))) ∧
    Forall (on_a_cycle (build_graph (_normalize_tasks example_tasks))) cycles.
Proof.
  apply (analyze_tasks_reports_cycles 739000 (λ _, None) (λ _, None)
           example_request example_tasks);
    [reflexivity | discriminate].
Defined.

Lemma suggest_tasks_top_of_ranking_witness :
  ∃ ranked cycles,
    analyze_tasks 739000 (λ _, None) (λ _, None) example_request
      = Some {| status := 200;
                body := AnalysisBody
                  (default "smart_balance" (data_strategy example_request))
                  ranked cycles |} ∧
    suggest_tasks 739000 (λ _, None) (λ _, None) (λ _, None) example_request
      = {| status := 200;
           body := SuggestionBody
             (default "smart_balance" (data_strategy example_request))
             (take 3 ranked)
             (3 `min` length (List.filter is_dict example_tasks)) |} ∧
    ∀ e1 e2, e1 ∈ take 3 ranked → e2 ∈ drop 3 ranked → not_lower e1 e2.
Proof.
  apply (suggest_tasks_top_of_ranking 739000 (λ _, None) (λ _, None)
           (λ _, None) example_request example_tasks);
    [reflexivity | discriminate | reflexivity].
Defined.

(** ** The first version of the scores *)

Lemma simple_urgency_cases (days_left : Z) :
  ∃ u : Z,
    (if (days_left <? 0)%Z then 10
     else if (days_left =? 0)%Z then 9
     else if (days_left <=? 3)%Z then 8
     else if (days_left <=? 7)%Z then 6
     else if (days_left <=? 14)%Z then 4
     else 2)%Z = u ∧
    ((days_left < 0 ∧ u = 10) ∨ (days_left = 0 ∧ u = 9) ∨
     (0 < days_left <= 3 ∧ u = 8) ∨ (3 < days_left <= 7 ∧ u = 6) ∨
     (7 < days_left <= 14 ∧ u = 4) ∨ (14 < days_left ∧ u = 2))%Z.
Proof.
  eexists. split; [done |].
  repeat (case_match; [solve [intuition lia] |]). intuition lia.
Qed.

Lemma simple_effort_cases (h : Q) :
  ((h <= 1)%Q ∧ SimpleLogic.effort_score (FFin h) = 9%Z) ∨
  ((1 < h)%Q ∧ (h <= 3)%Q ∧ SimpleLogic.effort_score (FFin h) = 7%Z) ∨
  ((3 < h)%Q ∧ (h <= 6)%Q ∧ SimpleLogic.effort_score (FFin h) = 5%Z) ∨
  ((6 < h)%Q ∧ SimpleLogic.effort_score (FFin h) = 3%Z).
Proof.
  unfold SimpleLogic.effort_score, of_int.
  destruct (fle (FFin h) (FFin (inject_Z 1))) eqn:H1.
  { apply fle_fin in H1. left. split; [exact H1 | done]. }
  apply fle_fin_false in H1.
  destruct (fle (FFin h) (FFin (inject_Z 3))) eqn:H3.
  { apply fle_fin in H3. right. left. by repeat split. }
  apply fle_fin_false in H3.
  destruct (fle (FFin h) (FFin (inject_Z 6))) eqn:H6.
  { apply fle_fin in H6. right. right. left. by repeat split. }
  apply fle_fin_false in H6. right. right. right. by split.
Qed.


Lemma third_mono (n m : Z) :
  (n <= m)%Z → (inject_Z n / 3 * 100 <= inject_Z m / 3 * 100)%Q.
Proof.
  intros H. rewrite Zle_Qle in H.
  unfold Qdiv. change (/ 3)%Q with (1 # 3)%Q. lra.
Qed.

Section SimpleLogicProperties.

Context (today : Z) (strptime : string → option Z).


(** Of two tasks, the one due no later, no less important and no longer
    never has the lower final score. *)
Theorem final_priority_is_monotone title1 title2 due1 due2 d1 d2
    (v1 v2 : Z) (h1 h2 : Q) :
  strptime due1 = Some d1 → strptime due2 = Some d2 →
  (d1 <= d2)%Z → (v2 <= v1)%Z → (h1 <= h2)%Q →
  ∃ r1 r2 q1 q2,
    SimpleLogic.final_priority today strptime
      (SimpleLogic.Task title1 (Some due1) (Some v1) (Some (FFin h1)))
      = Ok r1 ∧
    SimpleLogic.final_priority today strptime
      (SimpleLogic.Task title2 (Some due2) (Some v2) (Some (FFin h2)))
      = Ok r2 ∧
    SimpleLogic.final_score r1 = FFin q1 ∧
    SimpleLogic.final_score r2 = FFin q2 ∧ (q2 <= q1)%Q.
Proof.
  intros Hd1 Hd2 Hd Hv Hh. unfold SimpleLogic.final_priority.
  cbn [SimpleLogic.due_date SimpleLogic.importance SimpleLogic.hours
       SimpleLogic.getitem bind].
  unfold SimpleLogic.urgency_score. rewrite Hd1, Hd2. cbn [bind].
  destruct (simple_urgency_cases (d1 - today)) as (u1 & -> & Hu1).
  destruct (simple_urgency_cases (d2 - today)) as (u2 & -> & Hu2).
  eexists _, _, _, _.
  cbn [SimpleLogic.final_score round2].
  split; [done |]. split; [done |]. split; [done |]. split; [done |].
  apply hundredths_mono, round_half_even_mono, third_mono.
  assert (u2 <= u1)%Z by lia.
  assert (SimpleLogic.importance_score v2 <= SimpleLogic.importance_score v1)%Z
    by (unfold SimpleLogic.importance_score; lia).
  assert (SimpleLogic.effort_score (FFin h2)
          <= SimpleLogic.effort_score (FFin h1))%Z.
  { destruct (simple_effort_cases h1) as [[? ->] | [(? & ? & ->) | [(? & ? & ->) | [? ->]]]];
    destruct (simple_effort_cases h2) as [[? ->] | [(? & ? & ->) | [(? & ? & ->) | [? ->]]]];
      try lia; lra. }
  lia.
Qed.

End SimpleLogicProperties.

Lemma final_priority_is_monotone_witness :
  ∃ r1 r2 q1 q2,
    SimpleLogic.final_priority 739000 (λ _, Some 739001%Z)
      (SimpleLogic.Task None (Some "d") (Some 8%Z) (Some (FFin 2)))
      = Ok r1 ∧
    SimpleLogic.final_priority 739000 (λ _, Some 739001%Z)
      (SimpleLogic.Task None (Some "d") (Some 5%Z) (Some (FFin 4)))
      = Ok r2 ∧
    SimpleLogic.final_score r1 = FFin q1 ∧
    SimpleLogic.final_score r2 = FFin q2 ∧ (q2 <= q1)%Q.
Proof.
  apply (final_priority_is_monotone 739000 (λ _, Some 739001%Z)
           None None "d" "d" 739001 739001 8 5 2 4);
    [reflexivity | reflexivity | lia | lia | by vm_compute].
Defined.

(** ** The blend of the four factors *)


Lemma clamp_importance_mono (x y : Q) :
  (x <= y)%Q →
  ∃ p q,
    pymax (FFin 1.0) (pymin (FFin 10.0) (FFin x)) = FFin p ∧
    pymax (FFin 1.0) (pymin (FFin 10.0) (FFin y)) = FFin q ∧
    (p <= q)%Q ∧ (1 <= p)%Q ∧ (q <= 10)%Q ∧
    ((1 <= x)%Q → (x <= 10)%Q → p == x)%Q.
Proof.
  intros Hle. unfold pymin.
  destruct (flt (FFin x) (FFin 10.0)) eqn:Hx;
    destruct (flt (FFin y) (FFin 10.0)) eqn:Hy; unfold pymax.
  all: repeat match goal with
       | |- context [flt (FFin ?a) (FFin ?b)] =>
           let H := fresh "H" in destruct (flt (FFin a) (FFin b)) eqn:H
       end.
  all: repeat match goal with
       | H : flt (FFin _) (FFin _) = true |- _ => apply flt_fin in H
       | H : flt (FFin _) (FFin _) = false |- _ => apply flt_fin_false in H
       end.
  all: eexists _, _; split; [done |]; split; [done |].
  all: repeat split; try intros; lra.
Qed.

Section Blend.

Context (today : Z) (strptime : string → option Z)
        (float_of_str : string → option pyfloat).

(** Of two numbers, the larger is never the less important; a number from
    1 to 10 is its own importance score. *)
Theorem importance_higher_is_not_lower importance1 importance2 (x y : Q) :
  py_float float_of_str importance1 = Ok (FFin x) →
  py_float float_of_str importance2 = Ok (FFin y) →
  (x <= y)%Q →
  ∃ p q,
    calculate_importance_score float_of_str importance1 = Ok (FFin p) ∧
    calculate_importance_score float_of_str importance2 = Ok (FFin q) ∧
    (p <= q)%Q ∧ (1 <= p)%Q ∧ (q <= 10)%Q ∧
    ((1 <= x)%Q → (x <= 10)%Q → p == x)%Q.
Proof.
  intros H1 H2 Hle. unfold calculate_importance_score. rewrite H1, H2.
  cbn [bind try_except].
  destruct (clamp_importance_mono x y Hle) as (p & q & -> & -> & H).
  by exists p, q.
Qed.

(** The score follows the factors: of two tasks, scored by the same
    strategy, the one whose four factor scores are no lower never has the
    lower score. *)
Theorem score_follows_the_factors strategy task1 task2 all_tasks1 all_tasks2
    (u1 u2 i1 i2 e1 e2 p1 p2 : Q) :
  calculate_urgency_score today strptime (default VNone (due_date task1))
    = Ok (FFin u1) →
  calculate_urgency_score today strptime (default VNone (due_date task2))
    = Ok (FFin u2) →
  calculate_importance_score float_of_str
    (default VNone (importance task1)) = Ok (FFin i1) →
  calculate_importance_score float_of_str
    (default VNone (importance task2)) = Ok (FFin i2) →
  calculate_effort_score float_of_str
    (default VNone (estimated_hours task1)) = Ok (FFin e1) →
  calculate_effort_score float_of_str
    (default VNone (estimated_hours task2)) = Ok (FFin e2) →
  calculate_dependency_score (task_key task1) all_tasks1 = Ok (FFin p1) →
  calculate_dependency_score (task_key task2) all_tasks2 = Ok (FFin p2) →
  (u2 <= u1)%Q → (i2 <= i1)%Q → (e2 <= e1)%Q → (p2 <= p1)%Q →
  ∃ r1 r2 s1 s2,
    score_task today strptime float_of_str (TaskScorer_init strategy)
      task1 all_tasks1 = Ok r1 ∧
    score_task today strptime float_of_str (TaskScorer_init strategy)
      task2 all_tasks2 = Ok r2 ∧
    score r1 = FFin s1 ∧ score r2 = FFin s2 ∧ (s2 <= s1)%Q.
Proof.
  intros Hu1 Hu2 Hi1 Hi2 He1 He2 Hp1 Hp2 Hu Hi He Hp.
  unfold score_task.
  rewrite Hu1, Hu2, Hi1, Hi2, He1, He2, Hp1, Hp2.
  cbn [bind try_except_Exception fmul fadd round2 TaskScorer_init weights].
  eexists _, _, _, _. cbn [score].
  split; [done |]. split; [done |]. split; [done |]. split; [done |].
  apply hundredths_mono, round_half_even_mono.
  destruct (init_weights_sum strategy) as (Hw1 & Hw2 & Hw3 & Hw4 & _).
  cbn [TaskScorer_init weights] in Hw1, Hw2, Hw3, Hw4. nra.
Qed.

End Blend.

Lemma importance_higher_is_not_lower_witness :
  ∃ p q,
    calculate_importance_score (λ _, None) (VInt 3) = Ok (FFin p) ∧
    calculate_importance_score (λ _, None) (VInt 12) = Ok (FFin q) ∧
    (p <= q)%Q ∧ (1 <= p)%Q ∧ (q <= 10)%Q ∧
    ((1 <= inject_Z 3)%Q → (inject_Z 3 <= 10)%Q → p == inject_Z 3)%Q.
Proof.
  apply (importance_higher_is_not_lower (λ _, None) (VInt 3) (VInt 12)
           (inject_Z 3) (inject_Z 12));
    [reflexivity | reflexivity | by vm_compute].
Defined.

Lemma score_follows_the_factors_witness :
  ∃ r1 r2 s1 s2,
    score_task 739000 (λ _, None) (λ _, None)
      (TaskScorer_init "high_impact")
      (full_task 1 "Report" (VDate 739001) 3 7) [] = Ok r1 ∧
    score_task 739000 (λ _, None) (λ _, None)
      (TaskScorer_init "high_impact")
      (full_task 2 "Slides" (VDate 739010) 5 4) [] = Ok r2 ∧
    score r1 = FFin s1 ∧ score r2 = FFin s2 ∧ (s2 <= s1)%Q.
Proof.
  apply (score_follows_the_factors 739000 (λ _, None) (λ _, None)
           "high_impact"
           (full_task 1 "Report" (VDate 739001) 3 7)
           (full_task 2 "Slides" (VDate 739010) 5 4) [] []
           9.0 4.0 7 4 6.0 4.0 0.0 0.0);
    first [reflexivity | by vm_compute].
Defined.

Lemma no_threshold_met_zero self :
  no_threshold_met self
    (list_to_map [("urgency", FFin 0.0); ("importance", FFin 0.0);
                  ("effort", FFin 0.0); ("dependencies", FFin 0.0)]) = true.
Proof.
  unfold no_threshold_met.
  set (components := list_to_map _ : gmap string pyfloat).
  assert (components !! "urgency" = Some (FFin 0.0)) as -> by by vm_compute.
  assert (components !! "importance" = Some (FFin 0.0)) as ->
    by by vm_compute.
  assert (components !! "effort" = Some (FFin 0.0)) as -> by by vm_compute.
  assert (components !! "dependencies" = Some (FFin 0.0)) as ->
    by by vm_compute.
  cbn [default from_option id].
  assert (∀ n, (1 <= n)%Z → fge (FFin 0.0) (of_int n) = false) as Hlow.
  { intros n Hn. unfold fge, of_int. apply fle_fin_false.
    apply (Qlt_le_trans _ 1); [done |].
    change 1%Q with (inject_Z 1). by rewrite <- Zle_Qle. }
  rewrite !Hlow by lia. by rewrite !andb_false_r.
Qed.

Section Failure.

Context (today : Z) (strptime : string → option Z)
        (float_of_str : string → option pyfloat).

(** A task whose scoring failed looks like a task of balanced priority:
    when the result of [score_task] has an [error] entry, which it has
    only after the overflow of [float], its score is 0.0 and its
    explanation is the message for a task that meets no threshold. *)
Theorem failed_scoring_reads_as_balanced self task all_tasks r message :
  score_task today strptime float_of_str self task all_tasks = Ok r →
  error r = Some message →
  message = "int too large to convert to float" ∧
  score r = FFin 0.0 ∧
  generate_explanation self task r
    = "📊 Balanced priority across all factors".
Proof.
  unfold score_task.
  destruct (urgency_score_range today strptime
              (default VNone (due_date task))) as (u & -> & _).
  assert (∀ e,
    error {| score := FFin 0.0;
             components := list_to_map [
               ("urgency", FFin 0.0); ("importance", FFin 0.0);
               ("effort", FFin 0.0); ("dependencies", FFin 0.0)];
             error := Some (exn_message e) |} = Some message →
    e = OverflowError →
    message = "int too large to convert to float" ∧
    FFin 0.0 = FFin 0.0 ∧
    generate_explanation self task
      {| score := FFin 0.0;
         components := list_to_map [
           ("urgency", FFin 0.0); ("importance", FFin 0.0);
           ("effort", FFin 0.0); ("dependencies", FFin 0.0)];
         error := Some (exn_message e) |}
      = "📊 Balanced priority across all factors") as Hentry.
  { intros e [= <-] ->. split; [done |]. split; [done |].
    unfold generate_explanation. cbn [components].
    rewrite bool_decide_eq_true_2; [done |].
    apply explanation_reasons_empty, no_threshold_met_zero. }
  destruct (importance_score_cases float_of_str
              (default VNone (importance task)))
    as [(i & -> & _) | ->];
    [| cbn [bind try_except_Exception]; intros [= <-] Herr;
       by apply (Hentry OverflowError)].
  destruct (effort_score_cases float_of_str
              (default VNone (estimated_hours task)))
    as [(e & -> & _) | ->];
    [| cbn [bind try_except_Exception]; intros [= <-] Herr;
       by apply (Hentry OverflowError)].
  destruct (dependency_score_range (task_key task) all_tasks)
    as (d & -> & _).
  cbn [bind try_except_Exception]. by intros [= <-] [=].
Qed.

End Failure.

Lemma failed_scoring_reads_as_balanced_witness :
  "int too large to convert to float" = "int too large to convert to float" ∧
  score {| score := FFin 0.0;
           components := list_to_map [
             ("urgency", FFin 0.0); ("importance", FFin 0.0);
             ("effort", FFin 0.0); ("dependencies", FFin 0.0)];
           error := Some "int too large to convert to float" |} = FFin 0.0 ∧
  generate_explanation (TaskScorer_init "smart_balance")
    (full_task 1 "Report" VNone 3 (10 ^ 400))
    {| score := FFin 0.0;
       components := list_to_map [
         ("urgency", FFin 0.0); ("importance", FFin 0.0);
         ("effort", FFin 0.0); ("dependencies", FFin 0.0)];
       error := Some "int too large to convert to float" |}
    = "📊 Balanced priority across all factors".
Proof.
  apply (failed_scoring_reads_as_balanced 739000 (λ _, None) (λ _, None)
           (TaskScorer_init "smart_balance")
           (full_task 1 "Report" VNone 3 (10 ^ 400)) []);
    [by vm_compute | reflexivity].
Defined.
